(** * preactis: a Web NFC scan / write utility (script.js)

    A shallow embedding of the Codec ([dataViewToHex], [decodeRecord]), of
    the Session Manager ([startScan], [stopScan], [writeNfc],
    [writeMultiDemo]) and of the [handleWrite] handler of the shell that
    guards [writeNfc].

    JavaScript values are modelled as the program uses them:
    - a string is its sequence of UTF-16 code units;
    - a [DataView] / [Uint8Array] is the list of its bytes;
    - an optional property ([undefined] or [null]) is an [option];
    - a call that can throw returns a [completion];
    - an [async] function returns a [promise] next to the platform state
      it leaves behind. *)

From Stdlib Require Import List PeanoNat NArith ZArith Lia ZifyBool Bool.
From Stdlib Require Import Strings.String Strings.Ascii Strings.Byte.
Import ListNotations.

Local Open Scope N_scope.

(* ================================================================== *)
(** ** JavaScript strings *)
(* ================================================================== *)

(** A JavaScript string: the list of its UTF-16 code units. *)
Definition jsstring := list N.

(** The code units of an ASCII literal of the source. *)
Definition str (s : string) : jsstring :=
  map N_of_ascii (list_ascii_of_string s).

(** [a === b] on strings. *)
Fixpoint js_eqb (a b : jsstring) : bool :=
  match a, b with
  | [], [] => true
  | x :: a', y :: b' => (x =? y) && js_eqb a' b'
  | _, _ => false
  end.

(** [s.startsWith(p)] *)
Fixpoint startsWith (s p : jsstring) : bool :=
  match p, s with
  | [], _ => true
  | y :: p', x :: s' => (x =? y) && startsWith s' p'
  | _ :: _, [] => false
  end.

(** [String(n)] for a non-negative integer, in the given radix (2..36):
    digits [0-9a-z], most significant first, no leading zero. *)
Definition digit_char (d : N) : N :=
  if d <? 10 then 48 + d else 87 + d.

Fixpoint to_digits (fuel : nat) (radix n : N) (acc : jsstring) : jsstring :=
  match fuel with
  | O => acc
  | S fuel' =>
      let acc' := digit_char (n mod radix) :: acc in
      if n / radix =? 0 then acc' else to_digits fuel' radix (n / radix) acc'
  end.

Definition Number_toString (radix n : N) : jsstring :=
  to_digits (S (N.size_nat n)) radix n [].

(** [s.padStart(targetLength, padString)] *)
Fixpoint repeat_fill (fuel : nat) (pad cur : jsstring) (k : nat) : jsstring :=
  match k with
  | O => []
  | S k' =>
      match cur with
      | c :: cur' => c :: repeat_fill fuel pad cur' k'
      | [] =>
          match fuel, pad with
          | S fuel', c :: pad' => c :: repeat_fill fuel' pad pad' k'
          | _, _ => []
          end
      end
  end.

Definition padStart (targetLength : nat) (padString s : jsstring) : jsstring :=
  let len := List.length s in
  if Nat.leb targetLength len then s
  else
    match padString with
    | [] => s
    | _ => repeat_fill targetLength padString padString (targetLength - len) ++ s
    end.

(** [parts.join(sep)] *)
Fixpoint join (sep : jsstring) (parts : list jsstring) : jsstring :=
  match parts with
  | [] => []
  | [p] => p
  | p :: ps => p ++ sep ++ join sep ps
  end.

(** [s.toUpperCase()], on the code units [a-z] that [dataViewToHex]
    can hand to it; every other ASCII code unit is its own upper case. *)
Definition upper_unit (c : N) : N :=
  if (97 <=? c) && (c <=? 122) then c - 32 else c.

Definition toUpperCase (s : jsstring) : jsstring := map upper_unit s.

(** Truthiness of an optional string: [undefined], [null] and [""] are
    falsy. *)
Definition truthy (v : option jsstring) : bool :=
  match v with
  | Some (_ :: _) => true
  | _ => false
  end.

(** [v || null] *)
Definition or_null (v : option jsstring) : option jsstring :=
  if truthy v then v else None.

(* ================================================================== *)
(** ** Exceptions and completions *)
(* ================================================================== *)

(** A thrown value: the [name] and the [message] of the error object. *)
Record exn := mkExn { exn_name : string; exn_message : jsstring }.

Inductive completion (A : Type) : Type :=
| Normal (a : A)
| Throw (e : exn).
Arguments Normal {A} a.
Arguments Throw {A} e.

Definition bind {A B} (c : completion A) (k : A -> completion B) : completion B :=
  match c with
  | Normal a => k a
  | Throw e => Throw e
  end.

(** [try { body } catch { handler }] *)
Definition try_catch {A} (body : completion A) (handler : exn -> completion A)
  : completion A :=
  match body with
  | Normal a => Normal a
  | Throw e => handler e
  end.

Declare Scope js_scope.
Delimit Scope js_scope with js.
Notation "x <- c ;; k" := (bind c (fun x => k))
  (at level 61, c at next level, right associativity) : js_scope.
Local Open Scope js_scope.

Fixpoint mapM {A B} (f : A -> completion B) (l : list A) : completion (list B) :=
  match l with
  | [] => Normal []
  | a :: l' => b <- f a ;; bs <- mapM f l' ;; Normal (b :: bs)
  end.

Definition TypeError (msg : string) : exn := mkExn "TypeError" (str msg).
Definition RangeError (msg : string) : exn := mkExn "RangeError" (str msg).
Definition ReferenceError (msg : string) : exn := mkExn "ReferenceError" (str msg).

(* ================================================================== *)
(** ** Byte views *)
(* ================================================================== *)

Definition DataView := list byte.

Definition byteLength (view : DataView) : nat := List.length view.

(** [view.getUint8(i)]: a [RangeError] outside the view. *)
Definition getUint8 (view : DataView) (i : nat) : completion N :=
  match nth_error view i with
  | Some b => Normal (Byte.to_N b)
  | None => Throw (RangeError "Offset is outside the bounds of the DataView")
  end.

(** [Array.from({ length: n }, (_, i) => f(i))] *)
Definition Array_from {A} (n : nat) (f : nat -> completion A) : completion (list A) :=
  mapM f (seq 0 n).

(* ================================================================== *)
(** ** Utilities module: dataViewToHex *)
(* ================================================================== *)

Definition dataViewToHex (view : DataView) : completion jsstring :=
  parts <- Array_from (byteLength view)
             (fun i => b <- getUint8 view i ;;
                       Normal (padStart 2 (str "0") (Number_toString 16 b))) ;;
  Normal (toUpperCase (join (str ":") parts)).


(* ================================================================== *)
(** ** Platform: the text codec ([TextEncoder], [TextDecoder]) *)
(* ================================================================== *)

(** The browser's UTF-8 codec, after the Encoding Standard.  The source
    only calls it: [new TextEncoder().encode(s)] and
    [new TextDecoder().decode(view)]. *)

Definition byte_of_N (n : N) : byte :=
  match Byte.of_N n with
  | Some b => b
  | None => x00
  end.

Definition in_range (lo hi b : N) : bool := (lo <=? b) && (b <=? hi).

(** A scalar value: a code point that is not a surrogate. *)
Definition is_scalar (c : N) : bool :=
  (c <=? 0x10FFFF) && negb (in_range 0xD800 0xDFFF c).

(** *** UTF-8 encoder *)

Fixpoint continuation_bytes (count : nat) (c : N) : list byte :=
  match count with
  | O => []
  | S k =>
      byte_of_N (N.lor 0x80 (N.land (N.shiftr c (6 * N.of_nat k)) 0x3F))
        :: continuation_bytes k c
  end.

Definition utf8_encode_cp (c : N) : list byte :=
  if in_range 0x00 0x7F c then [byte_of_N c]
  else
    let '(count, offset) :=
      if in_range 0x0080 0x07FF c then (1%nat, 0xC0)
      else if in_range 0x0800 0xFFFF c then (2%nat, 0xE0)
      else (3%nat, 0xF0) in
    byte_of_N (N.shiftr c (6 * N.of_nat count) + offset)
      :: continuation_bytes count c.

Definition UTF8_encode (cps : list N) : list byte :=
  flat_map utf8_encode_cp cps.

(** Conversion of a JavaScript string to scalar values: a surrogate pair
    is one code point, a lone surrogate becomes U+FFFD. *)
Fixpoint USVString (s : jsstring) : list N :=
  match s with
  | [] => []
  | c :: s' =>
      if in_range 0xD800 0xDBFF c then
        match s' with
        | d :: s'' =>
            if in_range 0xDC00 0xDFFF d
            then (0x10000 + N.shiftl (c - 0xD800) 10 + (d - 0xDC00)) :: USVString s''
            else 0xFFFD :: USVString s'
        | [] => [0xFFFD]
        end
      else if in_range 0xDC00 0xDFFF c then 0xFFFD :: USVString s'
      else c :: USVString s'
  end.

(** [new TextEncoder().encode(s)] *)
Definition TextEncoder_encode (s : jsstring) : list byte :=
  UTF8_encode (USVString s).

(** *** UTF-8 decoder *)

Record utf8_decoder := mkDecoder {
  code_point : N;
  bytes_seen : N;
  bytes_needed : N;
  lower_boundary : N;
  upper_boundary : N
}.

Definition utf8_decoder_init : utf8_decoder := mkDecoder 0 0 0 0x80 0xBF.

Inductive handler_result :=
| Continue
| Item (c : N)
| Error.

(** The decoder's handler on one byte.  The boolean tells that the byte
    was restored to the queue, to be read again. *)
Definition utf8_handler (d : utf8_decoder) (b : N)
  : handler_result * utf8_decoder * bool :=
  if bytes_needed d =? 0 then
    if in_range 0x00 0x7F b then (Item b, d, false)
    else if in_range 0xC2 0xDF b then
      (Continue,
       mkDecoder (N.land b 0x1F) (bytes_seen d) 1
                 (lower_boundary d) (upper_boundary d), false)
    else if in_range 0xE0 0xEF b then
      let lo := if b =? 0xE0 then 0xA0 else lower_boundary d in
      let hi := if b =? 0xED then 0x9F else upper_boundary d in
      (Continue, mkDecoder (N.land b 0xF) (bytes_seen d) 2 lo hi, false)
    else if in_range 0xF0 0xF4 b then
      let lo := if b =? 0xF0 then 0x90 else lower_boundary d in
      let hi := if b =? 0xF4 then 0x8F else upper_boundary d in
      (Continue, mkDecoder (N.land b 0x7) (bytes_seen d) 3 lo hi, false)
    else (Error, d, false)
  else if negb (in_range (lower_boundary d) (upper_boundary d) b) then
    (Error, utf8_decoder_init, true)
  else
    let cp := N.lor (N.shiftl (code_point d) 6) (N.land b 0x3F) in
    let seen := bytes_seen d + 1 in
    if negb (seen =? bytes_needed d)
    then (Continue, mkDecoder cp seen (bytes_needed d) 0x80 0xBF, false)
    else (Item cp, utf8_decoder_init, false).

(** Running the decoder over the queue, end of queue included.  A
    restored byte is read a second time, by a decoder that needs no
    byte and so restores nothing. *)
Fixpoint utf8_run (d : utf8_decoder) (queue : list byte) : list handler_result :=
  match queue with
  | [] => if bytes_needed d =? 0 then [] else [Error]
  | b :: rest =>
      match utf8_handler d (Byte.to_N b) with
      | (r, d', false) => r :: utf8_run d' rest
      | (r, d', true) =>
          let '(r', d'', _) := utf8_handler d' (Byte.to_N b) in
          r :: r' :: utf8_run d'' rest
      end
  end.

(** Processing the results in an error mode: [fatal] stops at the first
    error, replacement emits U+FFFD for it. *)
Fixpoint process_results (fatal : bool) (rs : list handler_result)
  : option (list N) :=
  match rs with
  | [] => Some []
  | Continue :: rs' => process_results fatal rs'
  | Item c :: rs' => option_map (cons c) (process_results fatal rs')
  | Error :: rs' =>
      if fatal then None
      else option_map (cons 0xFFFD) (process_results fatal rs')
  end.

(** A scalar value as UTF-16 code units. *)
Definition utf16_encode_cp (c : N) : jsstring :=
  if c <? 0x10000 then [c]
  else [0xD800 + N.shiftr (c - 0x10000) 10; 0xDC00 + N.land (c - 0x10000) 0x3FF].

Definition utf16_encode (cps : list N) : jsstring :=
  flat_map utf16_encode_cp cps.

(** Serialising the output: unless the BOM is ignored, a first U+FEFF is
    dropped. *)
Definition strip_bom (cps : list N) : list N :=
  match cps with
  | c :: cps' => if c =? 0xFEFF then cps' else cps
  | [] => []
  end.

Record TextDecoder := mkTextDecoder { fatal : bool; ignoreBOM : bool }.

(** [new TextDecoder()]: label "utf-8", [fatal] and [ignoreBOM] false. *)
Definition new_TextDecoder : TextDecoder := mkTextDecoder false false.

(** [decoder.decode(view)] *)
Definition TextDecoder_decode (decoder : TextDecoder) (view : DataView)
  : completion jsstring :=
  match process_results (fatal decoder) (utf8_run utf8_decoder_init view) with
  | None => Throw (TypeError "The encoded data was not valid.")
  | Some cps =>
      Normal (utf16_encode (if ignoreBOM decoder then cps else strip_bom cps))
  end.

(* ================================================================== *)
(** ** Data model *)
(* ================================================================== *)

(** A record as the platform delivers it.  [None] stands for a property
    that is [undefined] or [null]. *)
Module TagRecord.
Record t := mk {
  recordType : jsstring;
  mediaType : option jsstring;
  id : option jsstring;
  data : option DataView
}.
End TagRecord.

(** The object [decodeRecord] returns.  [mediaType] and [id] are a
    string or [null] ([None]); [payload] is a string or [undefined]
    ([None]). *)
Module DecodedRecord.
Record t := mk {
  recordType : jsstring;
  mediaType : option jsstring;
  id : option jsstring;
  payload : option jsstring
}.
End DecodedRecord.

(* ================================================================== *)
(** ** Utilities module: decodeRecord *)
(* ================================================================== *)

(** The condition of the [if] inside the [try] block. *)
Definition text_based (record : TagRecord.t) : bool :=
  js_eqb (TagRecord.recordType record) (str "text")
  || js_eqb (TagRecord.recordType record) (str "url")
  || match TagRecord.mediaType record with
     | Some m => truthy (Some m) && startsWith m (str "text/")
     | None => false
     end.

(** The template literal of the [catch] block. *)
Definition binary_fallback (view : DataView) : jsstring :=
  str "[Binary Data: "
    ++ Number_toString 10 (N.of_nat (byteLength view))
    ++ str " bytes]".

Definition decodeRecord (record : TagRecord.t) : completion DecodedRecord.t :=
  let decoder := new_TextDecoder in
  payload <-
    match TagRecord.data record with
    | Some view =>
        p <- try_catch
               (if text_based record
                then TextDecoder_decode decoder view
                else hex <- dataViewToHex view ;; Normal (str "[Hex] " ++ hex))
               (fun _ => Normal (binary_fallback view)) ;;
        Normal (Some p)
    | None => Normal None
    end ;;
  Normal (DecodedRecord.mk
            (TagRecord.recordType record)
            (or_null (TagRecord.mediaType record))
            (or_null (TagRecord.id record))
            payload).

(* ================================================================== *)
(** ** Platform: the tag reader / writer and abort controllers *)
(* ================================================================== *)

(** The settled state of an awaited promise: fulfilled ([Normal]) or
    rejected ([Throw]); [await] rethrows the rejection. *)
Definition promise := completion.

(** The [data] of a record to write: a string left to the writer, or
    the bytes of a [Uint8Array]. *)
Inductive record_data :=
| Text (s : jsstring)
| Bytes (b : list byte).

(** A record literal handed to the writer; [mediaType] [None] is
    [null] or a property that the literal does not have. *)
Module RecordInit.
Record t := mk {
  recordType : jsstring;
  mediaType : option jsstring;
  data : record_data
}.
End RecordInit.

(** A message object: its [records], and for a message read from a tag
    whatever other own properties the spread [...message] copies. *)
Record Message (R : Type) := mkMessage {
  others : list (jsstring * jsstring);
  records : list R
}.
Arguments mkMessage {R} others records.
Arguments others {R} m.
Arguments records {R} m.

Definition WriteMessage := Message RecordInit.t.

(** An [AbortController] is known by its identity; its [signal] by the
    same. *)
Definition AbortController := nat.

Record Platform := mkPlatform {
  (** ["NDEFReader" in window] *)
  hasNDEFReader : bool;
  (** how the tag writer settles [write(message)]: [None] fulfils *)
  write_verdict : WriteMessage -> option exn;
  (** how the tag reader settles [scan()]: [None] fulfils *)
  scan_verdict : option exn;
  (** the messages handed to [write], latest first *)
  written : list WriteMessage;
  (** the controllers whose signal is aborted *)
  aborted : list AbortController;
  (** the signals that an ongoing scan is bound to *)
  scanning : list AbortController;
  (** the lines of [console.log] / [console.error], latest first *)
  console : list jsstring
}.

Definition set_written (w : list WriteMessage) (p : Platform) : Platform :=
  mkPlatform (hasNDEFReader p) (write_verdict p) (scan_verdict p) w
             (aborted p) (scanning p) (console p).

Definition set_abort (a s : list AbortController) (p : Platform) : Platform :=
  mkPlatform (hasNDEFReader p) (write_verdict p) (scan_verdict p) (written p)
             a s (console p).

Definition console_log (line : jsstring) (p : Platform) : Platform :=
  mkPlatform (hasNDEFReader p) (write_verdict p) (scan_verdict p) (written p)
             (aborted p) (scanning p) (line :: console p).

Definition is_aborted (c : AbortController) (p : Platform) : bool :=
  existsb (Nat.eqb c) (aborted p).

(** [new NDEFReader()]: a [ReferenceError] where the platform has no
    such global. *)
Definition new_NDEFReader (p : Platform) : completion unit :=
  if hasNDEFReader p then Normal tt
  else Throw (ReferenceError "NDEFReader is not defined").

(** [await writer.write(message)] *)
Definition NDEFReader_write (message : WriteMessage) (p : Platform)
  : Platform * promise unit :=
  (set_written (message :: written p) p,
   match write_verdict p message with
   | None => Normal tt
   | Some e => Throw e
   end).

(** [await ndef.scan({ signal })] *)
Definition NDEFReader_scan (signal : AbortController) (p : Platform)
  : Platform * promise unit :=
  if is_aborted signal p
  then (p, Throw (mkExn "AbortError" (str "The operation was aborted.")))
  else
    match scan_verdict p with
    | Some e => (p, Throw e)
    | None => (set_abort (aborted p) (signal :: scanning p) p, Normal tt)
    end.

(** [controller.abort()]: nothing on an aborted signal; otherwise the
    signal becomes aborted and the scans bound to it end.  The call
    returns [undefined] in either case. *)
Definition AbortController_abort (c : AbortController) (p : Platform)
  : Platform * completion unit :=
  (if is_aborted c p then p
   else set_abort (c :: aborted p)
                  (filter (fun s => negb (Nat.eqb c s)) (scanning p)) p,
   Normal tt).

(** A reading event of the tag reader. *)
Record EventTarget := mkTarget { tech : option jsstring }.

Record NDEFReadingEvent := mkEvent {
  message : Message TagRecord.t;
  serialNumber : option jsstring;
  target : option EventTarget
}.

(* ================================================================== *)
(** ** NFC module *)
(* ================================================================== *)

Definition stopScan (controller : option AbortController) (p : Platform)
  : Platform * completion unit :=
  match controller with
  | Some c => AbortController_abort c p
  | None => (p, Normal tt)
  end.

Definition writeNfc (recordType payload : jsstring) (mimeType : option jsstring)
    (p : Platform) : Platform * promise WriteMessage :=
  match new_NDEFReader p with
  | Throw e => (p, Throw e)
  | Normal _ =>
      let message :=
        if js_eqb recordType (str "mime") then
          let bytes := TextEncoder_encode payload in
          mkMessage [] [RecordInit.mk (str "mime") mimeType (Bytes bytes)]
        else if js_eqb recordType (str "unknown") then
          let bytes := TextEncoder_encode payload in
          mkMessage [] [RecordInit.mk recordType None (Bytes bytes)]
        else
          mkMessage [] [RecordInit.mk recordType None (Text payload)] in
      match NDEFReader_write message p with
      | (p', Throw e) => (p', Throw e)
      | (p', Normal _) => (p', Normal message)
      end
  end.

(** The three string literals of [writeMultiDemo]; the first ends with
    a space and U+1F44B, a surrogate pair. *)
Definition demo_text : jsstring :=
  str "Hello from Web NFC " ++ [0xD83D; 0xDC4B].
Definition demo_url : jsstring :=
  str "https://developer.mozilla.org/docs/Web/API/Web_NFC_API".
Definition demo_mime : jsstring := str "sample mime payload".

Definition writeMultiDemo (p : Platform) : Platform * promise WriteMessage :=
  match new_NDEFReader p with
  | Throw e => (p, Throw e)
  | Normal _ =>
      let message :=
        mkMessage []
          [ RecordInit.mk (str "text") None (Text demo_text);
            RecordInit.mk (str "url") None (Text demo_url);
            RecordInit.mk (str "mime") (Some (str "text/plain"))
                          (Bytes (TextEncoder_encode demo_mime)) ] in
      match NDEFReader_write message p with
      | (p', Throw e) => (p', Throw e)
      | (p', Normal _) => (p', Normal message)
      end
  end.

Section Scan.

(** The state of the caller, which its [onReading] callback acts on. *)
Variable App : Type.

Definition Callback : Type :=
  Message DecodedRecord.t -> option jsstring -> option jsstring -> App -> App.

(** The reader object, with the two handler properties [startScan]
    assigns. *)
Record NDEFReader := mkReader {
  onreadingerror : option (Platform -> Platform);
  onreading : option (NDEFReadingEvent -> App -> App)
}.

(** The arrow function assigned to [ndef.onreading].  An exception of
    the handler ends it before the callback runs. *)
Definition onreading_handler (onReading : Callback)
    (event : NDEFReadingEvent) (app : App) : App :=
  match mapM decodeRecord (records (message event)) with
  | Normal decodedRecords =>
      onReading (mkMessage (others (message event)) decodedRecords)
                (serialNumber event)
                (match target event with
                 | Some t => tech t
                 | None => None
                 end)
                app
  | Throw _ => app
  end.

(** The reader is local to [startScan] and kept by the platform; it is
    returned here so that events can be dispatched to it. *)
Definition startScan (signal : AbortController) (onReading : Callback)
    (p : Platform) : Platform * promise NDEFReader :=
  match new_NDEFReader p with
  | Throw e => (p, Throw e)
  | Normal _ =>
      match NDEFReader_scan signal p with
      | (p', Throw e) => (p', Throw e)
      | (p', Normal _) =>
          (p', Normal
                 (mkReader
                    (Some (console_log
                             (str "Cannot read data from the NFC tag. Try another one?")))
                    (Some (onreading_handler onReading))))
      end
  end.

(** The platform fires a [reading] event at the reader. *)
Definition fire_reading (ndef : NDEFReader) (event : NDEFReadingEvent)
    (app : App) : App :=
  match onreading ndef with
  | Some handler => handler event app
  | None => app
  end.

(** The platform fires events one after the other, in its order. *)
Definition deliver (ndef : NDEFReader) (events : list NDEFReadingEvent)
    (app : App) : App :=
  fold_left (fun a event => fire_reading ndef event a) events app.

End Scan.

Arguments mkReader {App} onreadingerror onreading.
Arguments onreading {App} n.
Arguments onreadingerror {App} n.
Arguments onreading_handler {App} onReading event app.
Arguments startScan {App} signal onReading p.
Arguments fire_reading {App} ndef event app.
Arguments deliver {App} ndef events app.

(** One invocation of a callback that only records its arguments. *)
Record Invocation := mkInvocation {
  inv_message : Message DecodedRecord.t;
  inv_serialNumber : option jsstring;
  inv_tech : option jsstring
}.

Definition recorder : Callback (list Invocation) :=
  fun m serial t trace => trace ++ [mkInvocation m serial t].

(* ================================================================== *)
(** ** Main application logic: handleWrite *)
(* ================================================================== *)

(** White space and line terminators, as [String.prototype.trim] sees
    them. *)
Definition is_space (c : N) : bool :=
  in_range 0x09 0x0D c || (c =? 0x20) || (c =? 0xA0) || (c =? 0x1680)
  || in_range 0x2000 0x200A c || (c =? 0x2028) || (c =? 0x2029)
  || (c =? 0x202F) || (c =? 0x205F) || (c =? 0x3000) || (c =? 0xFEFF).

Fixpoint trimStart (s : jsstring) : jsstring :=
  match s with
  | c :: s' => if is_space c then trimStart s' else s
  | [] => []
  end.

Definition trim (s : jsstring) : jsstring :=
  rev (trimStart (rev (trimStart s))).

(** The part of the page that [handleWrite] reads and writes. *)
Record UI := mkUI {
  recordType_value : jsstring;
  payload_value : jsstring;
  mimeType_value : jsstring;
  status_textContent : jsstring;
  status_color : jsstring;
  (** the cards of [ui.log]: heading and logged message, latest first *)
  log : list (jsstring * WriteMessage)
}.

Definition setStatus (text tone : jsstring) (ui : UI) : UI :=
  mkUI (recordType_value ui) (payload_value ui) (mimeType_value ui)
       text
       (str "var(--" ++ (if js_eqb tone (str "info") then str "text" else tone)
          ++ str ")")
       (log ui).

(** [appendLog] puts a card on top of the log; of the card, its heading
    and the logged object are kept, its markup and time stamp are not. *)
Definition appendLog (obj : WriteMessage) (heading : jsstring) (ui : UI) : UI :=
  mkUI (recordType_value ui) (payload_value ui) (mimeType_value ui)
       (status_textContent ui) (status_color ui)
       ((heading, obj) :: log ui).

Definition handleWrite (ui : UI) (p : Platform) : UI * Platform :=
  let type := recordType_value ui in
  let payload := payload_value ui in
  let mimeType := trim (mimeType_value ui) in
  if js_eqb type (str "mime") && negb (truthy (Some mimeType)) then
    (setStatus (str "Please provide a MIME type for this record.") (str "warn") ui, p)
  else
    match writeNfc type payload (Some mimeType) p with
    | (p', Normal message) =>
        (appendLog message (str "Wrote Message")
           (setStatus (str "Write succeeded " ++ [0x2714; 0xFE0F]) (str "ok") ui),
         p')
    | (p', Throw err) =>
        let p'' := console_log (exn_message err) p' in
        (setStatus (match or_null (Some (exn_message err)) with
                    | Some m => m
                    | None => str "Write failed"
                    end) (str "err") ui,
         p'')
    end.

(* ================================================================== *)
(** ** Reading a hex dump back *)
(* ================================================================== *)

(** What [dataViewToHex] is checked against: the dump is split on the
    colon and each pair is read as a hexadecimal number. *)

Definition colon : N := 58.

(** [s.split(sep)] for a separator of one code unit. *)
Fixpoint split (sep : N) (s : jsstring) : list jsstring :=
  match s with
  | [] => [[]]
  | c :: s' =>
      if c =? sep then [] :: split sep s'
      else
        match split sep s' with
        | piece :: pieces => (c :: piece) :: pieces
        | [] => [[c]]
        end
  end.

(** The pairs of a dump: the pieces between colons; the empty dump has
    none. *)
Definition hex_pairs (s : jsstring) : list jsstring :=
  match s with
  | [] => []
  | _ => split colon s
  end.

Definition hex_value (c : N) : option N :=
  if in_range 48 57 c then Some (c - 48)
  else if in_range 65 70 c then Some (c - 55)
  else if in_range 97 102 c then Some (c - 87)
  else None.

Definition parse_hex_pair (s : jsstring) : option byte :=
  match s with
  | [h; l] =>
      match hex_value h, hex_value l with
      | Some a, Some b => Byte.of_N (16 * a + b)
      | _, _ => None
      end
  | _ => None
  end.

Fixpoint all_some {A} (l : list (option A)) : option (list A) :=
  match l with
  | [] => Some []
  | Some a :: l' => option_map (cons a) (all_some l')
  | None :: _ => None
  end.

Definition parse_hex (s : jsstring) : option (list byte) :=
  all_some (map parse_hex_pair (hex_pairs s)).

(** An upper-case hexadecimal digit, [0-9A-F]. *)
Definition is_upper_hex (c : N) : bool :=
  in_range 48 57 c || in_range 65 70 c.

Definition upper_digit (d : N) : N :=
  if d <? 10 then 48 + d else 55 + d.

(** The two digits of a byte, zero-padded, in upper case. *)
Definition hex_pair (b : byte) : jsstring :=
  [upper_digit (Byte.to_N b / 16); upper_digit (Byte.to_N b mod 16)].

(* ================================================================== *)
(** ** What the properties are stated with *)
(* ================================================================== *)

(** A platform with a tag reader / writer that grants every request,
    nothing written, aborted or scanning yet. *)
Definition ready : Platform :=
  mkPlatform true (fun _ => None) None [] [] [] [].

(** The message of [writeMultiDemo]. *)
Definition demo_message : WriteMessage :=
  mkMessage []
    [ RecordInit.mk (str "text") None (Text demo_text);
      RecordInit.mk (str "url") None (Text demo_url);
      RecordInit.mk (str "mime") (Some (str "text/plain"))
                    (Bytes (TextEncoder_encode (str "sample mime payload"))) ].

(** What C1 reads: the call is rejected with an error of the given
    name and has handed nothing to the tag writer. *)
Definition fails_before_write (name : string) (p : Platform)
    (out : Platform * promise WriteMessage) : Prop :=
  (exists e, snd out = Throw e /\ exn_name e = name)
  /\ written (fst out) = written p.

(** The write form with record type ["mime"] and a MIME type of blanks
    only. *)
Definition blank_mime_form : UI :=
  mkUI (str "mime") (str "hello") (str "  ") (str "") (str "") [].

(** An invocation [inv] of the callback answers [event]: its message
    has the decoded records of the event, in their order, and the other
    properties of the event's message; its serial number and technology
    are the event's. *)
Definition reading_of (event : NDEFReadingEvent) (inv : Invocation) : Prop :=
  Forall2 (fun r d => decodeRecord r = Normal d)
          (records (message event)) (records (inv_message inv))
  /\ others (inv_message inv) = others (message event)
  /\ inv_serialNumber inv = serialNumber event
  /\ inv_tech inv = match target event with
                    | Some t => tech t
                    | None => None
                    end.

(** Calling a callback with the arguments of an invocation. *)
Definition call {App} (onReading : Callback App) (a : App) (inv : Invocation)
  : App :=
  onReading (inv_message inv) (inv_serialNumber inv) (inv_tech inv) a.

(** Two tag events: a message of one record, then one of three. *)
Definition event_one : NDEFReadingEvent :=
  mkEvent
    (mkMessage [] [TagRecord.mk (str "text") None None (Some [x68; x69])])
    (Some (str "04:a1:b2:c3"))
    None.

Definition event_three : NDEFReadingEvent :=
  mkEvent
    (mkMessage []
       [ TagRecord.mk (str "url") None None (Some [x61; x2e; x62]);
         TagRecord.mk (str "mime") (Some (str "image/png")) (Some (str "7"))
                      (Some [x0a; xff]);
         TagRecord.mk (str "empty") None None None ])
    None
    (Some (mkTarget (Some (str "NFC-A")))).

(* ================================================================== *)
(** ** UI module: escapeHtml *)
(* ================================================================== *)

(** The entity that the object literal of [escapeHtml] holds for one of
    the five characters of its pattern; a code unit that the pattern
    does not match stays. *)
Definition escape_unit (c : N) : jsstring :=
  if c =? 38 then str "&amp;"
  else if c =? 60 then str "&lt;"
  else if c =? 62 then str "&gt;"
  else if c =? 39 then str "&#39;"
  else if c =? 34 then str "&quot;"
  else [c].

(** [str.replace(pattern, (c) => table[c])], where the global pattern
    matches each ampersand, angle bracket, apostrophe and double
    quote. *)
Definition escapeHtml (s : jsstring) : jsstring := flat_map escape_unit s.

(** The five characters of the pattern. *)
Definition is_html_special (c : N) : bool :=
  (c =? 38) || (c =? 60) || (c =? 62) || (c =? 39) || (c =? 34).

(** Reading escaped text back: each of the five entities is one
    character again.  [skip] counts the code units of an entity that are
    still to be passed over. *)
Fixpoint unescape_from (skip : nat) (s : jsstring) : jsstring :=
  match s with
  | [] => []
  | c :: s' =>
      match skip with
      | S k => unescape_from k s'
      | O =>
          if c =? 38 then
            if startsWith s' (str "amp;") then 38 :: unescape_from 4 s'
            else if startsWith s' (str "lt;") then 60 :: unescape_from 3 s'
            else if startsWith s' (str "gt;") then 62 :: unescape_from 3 s'
            else if startsWith s' (str "#39;") then 39 :: unescape_from 4 s'
            else if startsWith s' (str "quot;") then 34 :: unescape_from 5 s'
            else c :: unescape_from 0 s'
          else c :: unescape_from 0 s'
      end
  end.

Definition unescapeHtml (s : jsstring) : jsstring := unescape_from 0 s.

(* ================================================================== *)
(** ** Well-formed strings *)
(* ================================================================== *)

(** A code unit has 16 bits. *)
Definition is_code_unit (c : N) : bool := c <? 0x10000.

(** A string without a lone surrogate. *)
Fixpoint well_formed (s : jsstring) : bool :=
  match s with
  | [] => true
  | c :: s' =>
      if in_range 0xD800 0xDBFF c then
        match s' with
        | d :: s'' => in_range 0xDC00 0xDFFF d && well_formed s''
        | [] => false
        end
      else negb (in_range 0xDC00 0xDFFF c) && well_formed s'
  end.

(* ================================================================== *)
(** ** Platform: reading errors *)
(* ================================================================== *)

(** The platform fires a [readingerror] event at the reader. *)
Definition fire_readingerror {App} (ndef : NDEFReader App) (p : Platform)
  : Platform :=
  match onreadingerror ndef with
  | Some handler => handler p
  | None => p
  end.

(** What the tag reader fires during a scan. *)
Inductive ScanEvent :=
| Reading (event : NDEFReadingEvent)
| ReadingError.

Definition dispatch {App} (ndef : NDEFReader App) (st : App * Platform)
    (ev : ScanEvent) : App * Platform :=
  match ev with
  | Reading event => (fire_reading ndef event (fst st), snd st)
  | ReadingError => (fst st, fire_readingerror ndef (snd st))
  end.

Definition dispatch_all {App} (ndef : NDEFReader App) (evs : list ScanEvent)
    (st : App * Platform) : App * Platform :=
  fold_left (dispatch ndef) evs st.

(** The reading events among the events fired. *)
Fixpoint readings (evs : list ScanEvent) : list NDEFReadingEvent :=
  match evs with
  | [] => []
  | Reading event :: evs' => event :: readings evs'
  | ReadingError :: evs' => readings evs'
  end.

Fixpoint reading_errors (evs : list ScanEvent) : nat :=
  match evs with
  | [] => O
  | Reading _ :: evs' => reading_errors evs'
  | ReadingError :: evs' => S (reading_errors evs')
  end.

(* ================================================================== *)
(** ** Main application logic: the scan handlers *)
(* ================================================================== *)

(** The object that the reading callback logs:
    [{ serialNumber: serialNumber || null, records: message.records }]. *)
Record TagRead := mkTagRead {
  read_serialNumber : option jsstring;
  read_records : list DecodedRecord.t
}.

(** The part of the application that the scan handlers read and write:
    [state.controller], the two scan buttons, the scanner animation, the
    serial and technology fields, the status line (in [page]) and the
    cards that the reading callback puts on top of [ui.log], latest
    first.  The cards of writes, in the same element, are those of
    [log (page _)]. *)
Record Shell := mkShell {
  controller : option AbortController;
  btnStart_disabled : bool;
  btnStop_disabled : bool;
  scanner_hidden : bool;
  serial_textContent : jsstring;
  tech_textContent : jsstring;
  page : UI;
  tag_cards : list (jsstring * TagRead)
}.

Definition set_controller (c : option AbortController) (sh : Shell) : Shell :=
  mkShell c (btnStart_disabled sh) (btnStop_disabled sh) (scanner_hidden sh)
          (serial_textContent sh) (tech_textContent sh) (page sh) (tag_cards sh).

Definition updateScanUI (isScanning : bool) (sh : Shell) : Shell :=
  mkShell (controller sh) isScanning (negb isScanning) (negb isScanning)
          (serial_textContent sh) (tech_textContent sh) (page sh) (tag_cards sh).

(** [setStatus] on the status line of the shell. *)
Definition shell_setStatus (text tone : jsstring) (sh : Shell) : Shell :=
  mkShell (controller sh) (btnStart_disabled sh) (btnStop_disabled sh)
          (scanner_hidden sh) (serial_textContent sh) (tech_textContent sh)
          (setStatus text tone (page sh)) (tag_cards sh).

(** [v || fallback] *)
Definition or_else (v : option jsstring) (fallback : jsstring) : jsstring :=
  match v with
  | Some (c :: s) => c :: s
  | _ => fallback
  end.

(** ["NDEFReader" in window] *)
Definition hasWebNFC (p : Platform) : bool := hasNDEFReader p.

(** [new AbortController()]: an identity that no signal known to the
    platform and no controller held by the shell has. *)
Definition new_AbortController (p : Platform) (sh : Shell) : AbortController :=
  S (fold_right Nat.max O
       (aborted p ++ scanning p
          ++ match controller sh with
             | Some c => [c]
             | None => []
             end)).

(** The arrow function that [handleStartScan] gives to [startScan]. *)
Definition onTagRead : Callback Shell :=
  fun message serialNumber tech sh =>
    let sh1 :=
      mkShell (controller sh) (btnStart_disabled sh) (btnStop_disabled sh)
              (scanner_hidden sh)
              (or_else serialNumber [0x2014])
              (or_else tech (str "NDEF"))
              (page sh) (tag_cards sh) in
    let sh2 := shell_setStatus (str "Tag read " ++ [0x2714; 0xFE0F]) (str "ok") sh1 in
    let decoded := mkTagRead (or_null serialNumber) (records message) in
    mkShell (controller sh2) (btnStart_disabled sh2) (btnStop_disabled sh2)
            (scanner_hidden sh2) (serial_textContent sh2) (tech_textContent sh2)
            (page sh2) ((str "Tag Read", decoded) :: tag_cards sh2).

(** [handleStartScan]: the shell and the platform it leaves, and the
    reader that the platform keeps when the scan has begun. *)
Definition handleStartScan (sh : Shell) (p : Platform)
  : Shell * Platform * option (NDEFReader Shell) :=
  if negb (hasWebNFC p) then
    (shell_setStatus (str "Web NFC not supported on this device/browser")
                     (str "err") sh, p, None)
  else
    let sh1 := updateScanUI true sh in
    let sh2 := set_controller (Some (new_AbortController p sh1)) sh1 in
    match startScan (new_AbortController p sh1) onTagRead p with
    | (p', Normal ndef) =>
        (shell_setStatus
           (str "Scanning" ++ [0x2026] ++ str " bring a tag close "
              ++ [0xD83D; 0xDCA1])
           (str "info") sh2, p', Some ndef)
    | (p', Throw err) =>
        let p'' := console_log (exn_message err) p' in
        (updateScanUI false
           (shell_setStatus (or_else (Some (exn_message err)) (str "Scan failed"))
                            (str "err") sh2),
         p'', None)
    end.

Definition handleStopScan (sh : Shell) (p : Platform) : Shell * Platform :=
  let '(sh1, p1) :=
    match controller sh with
    | Some c => (set_controller None sh, fst (AbortController_abort c p))
    | None => (sh, p)
    end in
  (shell_setStatus (str "Scan stopped") (str "info") (updateScanUI false sh1), p1).

(* ================================================================== *)
(** ** Main application logic: handleMultiWrite *)
(* ================================================================== *)

Definition handleMultiWrite (ui : UI) (p : Platform) : UI * Platform :=
  match writeMultiDemo p with
  | (p', Normal message) =>
      (appendLog message (str "Wrote Multi-Record")
         (setStatus (str "Multi-record write " ++ [0x2714; 0xFE0F]) (str "ok") ui),
       p')
  | (p', Throw err) =>
      let p'' := console_log (exn_message err) p' in
      (setStatus (or_else (Some (exn_message err)) (str "Write failed"))
                 (str "err") ui,
       p'')
  end.

(** Every card of the log shows a message that the tag writer was
    given. *)
Definition logged_written (ui : UI) (p : Platform) : Prop :=
  forall card, In card (log ui) -> In (snd card) (written p).

(* ================================================================== *)
(** ** Main application logic: the theme manager *)
(* ================================================================== *)

(** What [setupTheme] reads and writes: the ["theme"] item of
    [localStorage], the match of the dark colour scheme query, the
    [data-theme] attribute of the document element, the text of the
    toggle button ([None] without the button), and the number of click
    listeners on it. *)
Record ThemePage := mkTheme {
  stored_theme : option jsstring;
  prefers_dark : bool;
  data_theme : option jsstring;
  themeToggle : option jsstring;
  click_listeners : nat
}.

Definition sun : jsstring := [0x2600; 0xFE0F].
Definition moon : jsstring := [0xD83C; 0xDF19].

Definition applyTheme (theme : jsstring) (t : ThemePage) : ThemePage :=
  mkTheme (stored_theme t) (prefers_dark t) (Some theme)
          (match themeToggle t with
           | Some _ => Some (if js_eqb theme (str "dark") then sun else moon)
           | None => None
           end)
          (click_listeners t).

(** The click listener of the toggle button. *)
Definition toggle_theme (t : ThemePage) : ThemePage :=
  let newTheme :=
    match data_theme t with
    | Some currentTheme =>
        if js_eqb currentTheme (str "dark") then str "light" else str "dark"
    | None => str "dark"
    end in
  applyTheme newTheme
    (mkTheme (Some newTheme) (prefers_dark t) (data_theme t) (themeToggle t)
             (click_listeners t)).

Definition setupTheme (t : ThemePage) : ThemePage :=
  let initialTheme :=
    or_else (stored_theme t) (if prefers_dark t then str "dark" else str "light") in
  let t1 := applyTheme initialTheme t in
  match themeToggle t1 with
  | Some _ =>
      mkTheme (stored_theme t1) (prefers_dark t1) (data_theme t1) (themeToggle t1)
              (S (click_listeners t1))
  | None => t1
  end.

(** A click on the toggle button runs its listeners. *)
Definition click (t : ThemePage) : ThemePage :=
  Nat.iter (click_listeners t) toggle_theme t.

(** The page loaded again: the storage and the preference stay, the
    document is new. *)
Definition reload (t : ThemePage) : ThemePage :=
  mkTheme (stored_theme t) (prefers_dark t) None (themeToggle t) O.

(* ================================================================== *)
(** ** Forms the further properties are shown on *)
(* ================================================================== *)

(** The write form with record type ["text"]. *)
Definition text_form : UI :=
  mkUI (str "text") (str "hello") (str "") (str "") (str "") [].

(** The write form with record type ["mime"] and a MIME type typed
    between blanks. *)
Definition mime_form : UI :=
  mkUI (str "mime") (str "hello") (str " text/plain  ") (str "") (str "") [].

(** The shell before any scan: no controller, the stop button
    disabled, the animation hidden. *)
Definition idle_shell : Shell :=
  mkShell None false true true (str "") (str "") text_form [].

(** A new document with the toggle button: nothing stored, a dark colour
    scheme preferred, no theme attribute, no listener. *)
Definition new_document : ThemePage :=
  mkTheme None true None (Some (str "")) O.

(* ================================================================== *)
(** * Properties *)
(* ================================================================== *)

(** ** dataViewToHex *)

Section HexDump.

Lemma mapM_getUint8 {A} (f : N -> A) (view pre : DataView) :
  mapM (fun i => b <- getUint8 (pre ++ view) i ;; Normal (f b))
       (seq (List.length pre) (List.length view))
  = Normal (map (fun b => f (Byte.to_N b)) view).
Proof.
  revert pre; induction view as [|b view IH]; intros pre; [reflexivity|].
  cbn [List.length seq mapM map].
  unfold getUint8 at 1.
  rewrite nth_error_app2, Nat.sub_diag by lia. cbn [nth_error bind].
  specialize (IH (pre ++ [b])).
  rewrite <- app_assoc, length_app in IH. cbn [List.length app] in IH.
  rewrite Nat.add_1_r in IH. rewrite IH. reflexivity.
Qed.

Lemma toUpperCase_join (sep : jsstring) (parts : list jsstring) :
  toUpperCase (join sep parts) = join (toUpperCase sep) (map toUpperCase parts).
Proof.
  unfold toUpperCase.
  induction parts as [|p [|q parts] IH]; try reflexivity.
  cbn [join map] in *. rewrite !map_app, IH. reflexivity.
Qed.

Lemma byte_hex_pair (b : byte) :
  toUpperCase (padStart 2 (str "0") (Number_toString 16 (Byte.to_N b)))
  = hex_pair b.
Proof. destruct b; vm_compute; reflexivity. Qed.

(** The dump is the colon-joined list of the bytes' pairs; the
    [getUint8] calls of [dataViewToHex] stay inside the view. *)
Lemma dataViewToHex_pairs (view : DataView) :
  dataViewToHex view = Normal (join [colon] (map hex_pair view)).
Proof.
  unfold dataViewToHex, Array_from, byteLength.
  rewrite (mapM_getUint8 _ view []). cbn [bind].
  rewrite toUpperCase_join, map_map.
  f_equal. f_equal. apply map_ext, byte_hex_pair.
Qed.

Lemma join_pairs_length (parts : list jsstring) :
  Forall (fun p => List.length p = 2%nat) parts ->
  parts <> [] ->
  List.length (join [colon] parts) = (3 * List.length parts - 1)%nat.
Proof.
  induction 1 as [|p parts Hp Hall IH]; [intros H; now elim H|]; intros _.
  destruct parts as [|q parts].
  - cbn [join List.length]. lia.
  - specialize (IH ltac:(discriminate)).
    change (join [colon] (p :: q :: parts))
      with (p ++ [colon] ++ join [colon] (q :: parts)).
    rewrite !length_app, Hp, IH. cbn [List.length]. lia.
Qed.

Lemma split_piece (sep : N) (p rest : jsstring) :
  Forall (fun c => c <> sep) p ->
  split sep (p ++ sep :: rest) = p :: split sep rest.
Proof.
  induction 1 as [|c p Hc _ IH]; cbn [app split].
  - rewrite N.eqb_refl. reflexivity.
  - apply N.eqb_neq in Hc. rewrite Hc, IH. reflexivity.
Qed.

Lemma split_last (sep : N) (p : jsstring) :
  Forall (fun c => c <> sep) p -> split sep p = [p].
Proof.
  induction 1 as [|c p Hc _ IH]; cbn [split]; [reflexivity|].
  apply N.eqb_neq in Hc. rewrite Hc, IH. reflexivity.
Qed.

Lemma split_join (sep : N) (parts : list jsstring) :
  Forall (Forall (fun c => c <> sep)) parts ->
  parts <> [] ->
  split sep (join [sep] parts) = parts.
Proof.
  induction 1 as [|p parts Hp Hall IH]; [intros H; now elim H|]; intros _.
  destruct parts as [|q parts].
  - apply split_last, Hp.
  - change (join [sep] (p :: q :: parts))
      with (p ++ sep :: join [sep] (q :: parts)).
    rewrite split_piece by exact Hp.
    f_equal. apply IH. discriminate.
Qed.

Lemma hex_pair_digits (b : byte) :
  Forall (fun c => is_upper_hex c = true) (hex_pair b).
Proof. destruct b; repeat constructor. Qed.

Lemma hex_pair_parse (b : byte) :
  parse_hex_pair (hex_pair b) = Some b.
Proof. destruct b; reflexivity. Qed.

Lemma upper_hex_not_colon (c : N) : is_upper_hex c = true -> c <> colon.
Proof. unfold is_upper_hex, in_range, colon. lia. Qed.

Lemma all_some_map {A B} (f : A -> option B) (g : B -> A) (l : list B) :
  (forall b, f (g b) = Some b) ->
  all_some (map f (map g l)) = Some l.
Proof.
  intros Hfg. induction l as [|b l IH]; [reflexivity|].
  cbn [map all_some]. rewrite Hfg, IH. reflexivity.
Qed.

Lemma join_pairs_chars (view : DataView) :
  Forall (fun c => is_upper_hex c = true \/ c = colon)
         (join [colon] (map hex_pair view)).
Proof.
  induction view as [|b [|b' view] IH].
  - constructor.
  - eapply Forall_impl; [|apply hex_pair_digits]. intros; now left.
  - change (join [colon] (map hex_pair (b :: b' :: view)))
      with (hex_pair b ++ colon :: join [colon] (map hex_pair (b' :: view))).
    apply Forall_app; split.
    + eapply Forall_impl; [|apply hex_pair_digits]. intros; now left.
    + constructor; [now right|]. exact IH.
Qed.

End HexDump.

(** C3.  For every byte sequence [B], [dataViewToHex B] returns a
    string of length [3 * len B - 1] (0 when [B] is empty), made of
    upper-case hex digits and colons only, holding one zero-padded
    two-digit pair per byte, and splitting it on the colon and reading
    each pair as hexadecimal gives [B] back; bytes [0A FF] give
    ["0A:FF"]. *)
Theorem dataViewToHex_roundtrip :
  forall B : DataView,
  exists hex : jsstring,
    dataViewToHex B = Normal hex
    /\ List.length hex = match B with
                         | [] => 0%nat
                         | _ => (3 * List.length B - 1)%nat
                         end
    /\ Forall (fun c => is_upper_hex c = true \/ c = colon) hex
    /\ hex_pairs hex = map hex_pair B
    /\ parse_hex hex = Some B
    /\ dataViewToHex [x0a; xff] = Normal (str "0A:FF").
Proof.
  intros B. exists (join [colon] (map hex_pair B)).
  assert (Hpairs : hex_pairs (join [colon] (map hex_pair B)) = map hex_pair B).
  { destruct B as [|b B]; [reflexivity|].
    unfold hex_pairs.
    assert (Hne : join [colon] (map hex_pair (b :: B)) <> []).
    { destruct B; discriminate. }
    destruct (join [colon] (map hex_pair (b :: B))) eqn:E; [congruence|].
    rewrite <- E. apply split_join; [|discriminate].
    apply Forall_map, Forall_forall. intros b' _.
    eapply Forall_impl; [|apply hex_pair_digits].
    intros c. apply upper_hex_not_colon. }
  repeat split.
  - apply dataViewToHex_pairs.
  - destruct B as [|b B]; [reflexivity|].
    rewrite join_pairs_length, length_map; [reflexivity| |discriminate].
    apply Forall_map, Forall_forall. intros b' _. reflexivity.
  - apply join_pairs_chars.
  - exact Hpairs.
  - unfold parse_hex. rewrite Hpairs. apply all_some_map, hex_pair_parse.
Qed.

(** ** The text codec *)

Ltac Zify.zify_post_hook ::= Z.to_euclidean_division_equations.

Section Utf8.

Lemma to_N_byte_of_N (x : N) : x <= 255 -> Byte.to_N (byte_of_N x) = x.
Proof.
  intros Hx. unfold byte_of_N.
  pose proof (Byte.to_of_N_option_map x) as H.
  destruct (Byte.of_N x) as [b|]; cbn [option_map] in H;
    destruct (N.leb_spec x 255); try discriminate; try lia.
  now injection H.
Qed.

Lemma land_disjoint (a l k : N) : l < 2 ^ k -> N.land (a * 2 ^ k) l = 0.
Proof.
  intros Hl. apply N.bits_inj_0. intros n.
  rewrite N.land_spec.
  destruct (N.lt_ge_cases n k) as [Hn|Hn].
  - rewrite N.mul_pow2_bits_low by exact Hn. reflexivity.
  - destruct (N.eq_dec l 0) as [->|Hl0].
    + rewrite N.bits_0. apply andb_false_r.
    + rewrite (N.bits_above_log2 l n); [apply andb_false_r|].
      apply N.log2_lt_pow2; [lia|].
      eapply N.lt_le_trans; [exact Hl|].
      apply N.pow_le_mono_r; [lia|exact Hn].
Qed.

Lemma lor_low (a l k : N) : l < 2 ^ k -> N.lor (a * 2 ^ k) l = a * 2 ^ k + l.
Proof.
  intros Hl. pose proof (land_disjoint a l k Hl) as H.
  rewrite <- N.lxor_lor by exact H. symmetry. now apply N.add_nocarry_lxor.
Qed.

Lemma land_low (x k : N) : N.land x (N.ones k) = x mod 2 ^ k.
Proof. apply N.land_ones. Qed.

Lemma continuation_byte (x : N) :
  N.lor 0x80 (N.land x 0x3F) = 128 + x mod 64.
Proof.
  change 0x3F with (N.ones 6). rewrite land_low.
  change 0x80 with (2 * 2 ^ 6). rewrite lor_low; [reflexivity|].
  apply N.mod_lt. discriminate.
Qed.

Lemma accumulate (cp b : N) :
  N.lor (N.shiftl cp 6) (N.land b 0x3F) = cp * 64 + b mod 64.
Proof.
  change 0x3F with (N.ones 6). rewrite land_low, N.shiftl_mul_pow2.
  rewrite lor_low; [reflexivity|]. apply N.mod_lt. discriminate.
Qed.

Lemma encode_1 (c : N) : c <= 0x7F -> utf8_encode_cp c = [byte_of_N c].
Proof.
  intros H. unfold utf8_encode_cp, in_range.
  destruct ((0 <=? c) && (c <=? 127)) eqn:E; [reflexivity|lia].
Qed.

Lemma encode_2 (c : N) :
  0x80 <= c <= 0x7FF ->
  utf8_encode_cp c = [byte_of_N (c / 64 + 192); byte_of_N (128 + c mod 64)].
Proof.
  intros H. unfold utf8_encode_cp, in_range.
  destruct ((0 <=? c) && (c <=? 127)) eqn:E1; [lia|].
  destruct ((128 <=? c) && (c <=? 2047)) eqn:E2; [|lia].
  cbn [continuation_bytes].
  change (6 * N.of_nat 1) with 6. change (6 * N.of_nat 0) with 0.
  rewrite N.shiftr_0_r, !continuation_byte, !N.shiftr_div_pow2. reflexivity.
Qed.

Lemma encode_3 (c : N) :
  0x800 <= c <= 0xFFFF ->
  utf8_encode_cp c
  = [byte_of_N (c / 4096 + 224); byte_of_N (128 + (c / 64) mod 64);
     byte_of_N (128 + c mod 64)].
Proof.
  intros H. unfold utf8_encode_cp, in_range.
  destruct ((0 <=? c) && (c <=? 127)) eqn:E1; [lia|].
  destruct ((128 <=? c) && (c <=? 2047)) eqn:E2; [lia|].
  destruct ((2048 <=? c) && (c <=? 65535)) eqn:E3; [|lia].
  cbn [continuation_bytes].
  change (6 * N.of_nat 2) with 12.
  change (6 * N.of_nat 1) with 6. change (6 * N.of_nat 0) with 0.
  rewrite N.shiftr_0_r, !continuation_byte, !N.shiftr_div_pow2. reflexivity.
Qed.

Lemma encode_4 (c : N) :
  0x10000 <= c ->
  utf8_encode_cp c
  = [byte_of_N (c / 262144 + 240); byte_of_N (128 + (c / 4096) mod 64);
     byte_of_N (128 + (c / 64) mod 64); byte_of_N (128 + c mod 64)].
Proof.
  intros H. unfold utf8_encode_cp, in_range.
  destruct ((0 <=? c) && (c <=? 127)) eqn:E1; [lia|].
  destruct ((128 <=? c) && (c <=? 2047)) eqn:E2; [lia|].
  destruct ((2048 <=? c) && (c <=? 65535)) eqn:E3; [lia|].
  cbn [continuation_bytes].
  change (6 * N.of_nat 3) with 18. change (6 * N.of_nat 2) with 12.
  change (6 * N.of_nat 1) with 6. change (6 * N.of_nat 0) with 0.
  rewrite N.shiftr_0_r, !continuation_byte, !N.shiftr_div_pow2. reflexivity.
Qed.

Ltac decide_if :=
  match goal with
  | |- context [if ?b then _ else _] =>
      let E := fresh "E" in destruct b eqn:E; try lia
  end.

Lemma handler_ascii (b : N) :
  b <= 0x7F -> utf8_handler utf8_decoder_init b = (Item b, utf8_decoder_init, false).
Proof.
  intros H. unfold utf8_handler, in_range. cbn. decide_if. reflexivity.
Qed.

Lemma handler_lead2 (b : N) :
  0xC2 <= b <= 0xDF ->
  utf8_handler utf8_decoder_init b
  = (Continue, mkDecoder (b mod 32) 0 1 0x80 0xBF, false).
Proof.
  intros H. unfold utf8_handler, in_range. cbn [bytes_needed utf8_decoder_init N.eqb].
  do 2 decide_if. change 0x1F with (N.ones 5). rewrite land_low. reflexivity.
Qed.

Lemma handler_lead3 (b : N) :
  0xE0 <= b <= 0xEF ->
  utf8_handler utf8_decoder_init b
  = (Continue,
     mkDecoder (b mod 16) 0 2 (if b =? 0xE0 then 0xA0 else 0x80)
               (if b =? 0xED then 0x9F else 0xBF), false).
Proof.
  intros H. unfold utf8_handler, in_range. cbn [bytes_needed utf8_decoder_init N.eqb].
  do 3 decide_if. change 0xF with (N.ones 4). rewrite land_low. reflexivity.
Qed.

Lemma handler_lead4 (b : N) :
  0xF0 <= b <= 0xF4 ->
  utf8_handler utf8_decoder_init b
  = (Continue,
     mkDecoder (b mod 8) 0 3 (if b =? 0xF0 then 0x90 else 0x80)
               (if b =? 0xF4 then 0x8F else 0xBF), false).
Proof.
  intros H. unfold utf8_handler, in_range. cbn [bytes_needed utf8_decoder_init N.eqb].
  do 4 decide_if. change 0x7 with (N.ones 3). rewrite land_low. reflexivity.
Qed.

Lemma handler_continuation (cp seen needed lo hi b : N) :
  needed <> 0 -> lo <= b <= hi ->
  utf8_handler (mkDecoder cp seen needed lo hi) b
  = if seen + 1 =? needed
    then (Item (cp * 64 + b mod 64), utf8_decoder_init, false)
    else (Continue, mkDecoder (cp * 64 + b mod 64) (seen + 1) needed 0x80 0xBF,
          false).
Proof.
  intros Hn Hb. unfold utf8_handler, in_range.
  cbn [bytes_needed lower_boundary upper_boundary code_point bytes_seen].
  decide_if. decide_if. rewrite accumulate.
  destruct (seen + 1 =? needed); reflexivity.
Qed.

Ltac side :=
  repeat match goal with
         | |- context [if ?b then _ else _] => destruct b eqn:?
         end;
  lia.

(** A scalar value's encoding, at the head of the queue of a fresh
    decoder, is decoded to that scalar value, and the decoder is
    fresh again for the rest. *)
Lemma run_encoded (mode : bool) (c : N) (rest : list byte) :
  is_scalar c = true ->
  process_results mode (utf8_run utf8_decoder_init (utf8_encode_cp c ++ rest))
  = option_map (cons c)
      (process_results mode (utf8_run utf8_decoder_init rest)).
Proof.
  unfold is_scalar, in_range. intros Hc.
  destruct (N.le_gt_cases c 0x7F) as [H1|H1];
    [|destruct (N.le_gt_cases c 0x7FF) as [H2|H2];
      [|destruct (N.le_gt_cases c 0xFFFF) as [H3|H3]]].
  - rewrite encode_1 by lia. cbn [app utf8_run].
    rewrite to_N_byte_of_N, handler_ascii by lia. reflexivity.
  - rewrite encode_2 by lia. cbn [app utf8_run].
    rewrite !to_N_byte_of_N by lia.
    rewrite handler_lead2 by lia.
    rewrite handler_continuation by side.
    change (0 + 1 =? 1) with true. cbn [utf8_run process_results].
    replace ((c / 64 + 192) mod 32 * 64 + (128 + c mod 64) mod 64) with c by lia.
    reflexivity.
  - rewrite encode_3 by lia. cbn [app utf8_run].
    rewrite !to_N_byte_of_N by lia.
    rewrite handler_lead3 by lia.
    rewrite handler_continuation by side.
    change (0 + 1 =? 2) with false. cbn [utf8_run].
    rewrite handler_continuation by side.
    change (0 + 1 + 1 =? 2) with true. cbn [utf8_run process_results].
    replace (((c / 4096 + 224) mod 16 * 64 + (128 + c / 64 mod 64) mod 64) * 64
             + (128 + c mod 64) mod 64) with c by lia.
    reflexivity.
  - rewrite encode_4 by lia. cbn [app utf8_run].
    rewrite !to_N_byte_of_N by lia.
    rewrite handler_lead4 by lia.
    rewrite handler_continuation by side.
    change (0 + 1 =? 3) with false. cbn [utf8_run].
    rewrite handler_continuation by side.
    change (0 + 1 + 1 =? 3) with false. cbn [utf8_run].
    rewrite handler_continuation by side.
    change (0 + 1 + 1 + 1 =? 3) with true. cbn [utf8_run process_results].
    replace ((((c / 262144 + 240) mod 8 * 64 + (128 + c / 4096 mod 64) mod 64) * 64
              + (128 + c / 64 mod 64) mod 64) * 64
             + (128 + c mod 64) mod 64) with c by lia.
    reflexivity.
Qed.

(** Decoding inverts encoding, in either error mode. *)
Lemma decode_encoded (mode : bool) (cps : list N) :
  Forall (fun c => is_scalar c = true) cps ->
  process_results mode (utf8_run utf8_decoder_init (UTF8_encode cps)) = Some cps.
Proof.
  induction 1 as [|c cps Hc _ IH]; [reflexivity|].
  unfold UTF8_encode in *. cbn [flat_map].
  rewrite run_encoded, IH by exact Hc. reflexivity.
Qed.

(** In replacement mode the decoder always has an output. *)
Lemma replacement_total (rs : list handler_result) :
  exists cps, process_results false rs = Some cps.
Proof.
  induction rs as [|[|c|] rs [cps IH]]; cbn [process_results].
  - now exists [].
  - now exists cps.
  - exists (c :: cps). now rewrite IH.
  - exists (0xFFFD :: cps). now rewrite IH.
Qed.

(** Two lists of scalar values with the same encoding are the same: a
    valid UTF-8 sequence has one decoding. *)
Lemma UTF8_encode_injective (a b : list N) :
  Forall (fun c => is_scalar c = true) a ->
  Forall (fun c => is_scalar c = true) b ->
  UTF8_encode a = UTF8_encode b -> a = b.
Proof.
  intros Ha Hb E.
  pose proof (decode_encoded false a Ha) as Da.
  rewrite E, (decode_encoded false b Hb) in Da. now injection Da.
Qed.

(** [decode] of a decoder made by [new TextDecoder()] gives the scalar
    values of valid UTF-8 back, less a byte order mark at the head. *)
Lemma TextDecoder_decode_encode (cps : list N) :
  Forall (fun c => is_scalar c = true) cps ->
  TextDecoder_decode new_TextDecoder (UTF8_encode cps)
  = Normal (utf16_encode (strip_bom cps)).
Proof.
  intros Hall. unfold TextDecoder_decode, new_TextDecoder.
  cbn [fatal ignoreBOM]. rewrite decode_encoded by exact Hall. reflexivity.
Qed.

(** A decoder that is not fatal never throws. *)
Lemma TextDecoder_decode_total (view : DataView) :
  exists s, TextDecoder_decode new_TextDecoder view = Normal s.
Proof.
  unfold TextDecoder_decode, new_TextDecoder. cbn [fatal ignoreBOM].
  destruct (replacement_total (utf8_run utf8_decoder_init view)) as [cps ->].
  eauto.
Qed.

End Utf8.

(** ** decodeRecord *)

Section DecodeRecord.

Lemma js_eqb_eq (a b : jsstring) : js_eqb a b = true <-> a = b.
Proof.
  revert b; induction a as [|x a IH]; intros [|y b]; cbn [js_eqb];
    try (split; [discriminate|congruence]); [tauto|].
  rewrite andb_true_iff, N.eqb_eq, IH. split.
  - intros [-> ->]. reflexivity.
  - intros E. injection E as -> ->. auto.
Qed.

Lemma js_eqb_neq (a b : jsstring) : js_eqb a b = false <-> a <> b.
Proof.
  rewrite <- js_eqb_eq. destruct (js_eqb a b); split; congruence.
Qed.

Lemma startsWith_nonempty (m p : jsstring) :
  p <> [] -> startsWith m p = true -> truthy (Some m) = true.
Proof. destruct p, m; cbn; congruence. Qed.

(** The three ways through [decodeRecord]. *)

Lemma decodeRecord_no_data (r : TagRecord.t) :
  TagRecord.data r = None ->
  decodeRecord r
  = Normal (DecodedRecord.mk (TagRecord.recordType r)
              (or_null (TagRecord.mediaType r)) (or_null (TagRecord.id r)) None).
Proof. intros H. unfold decodeRecord. rewrite H. reflexivity. Qed.

Lemma decodeRecord_text (r : TagRecord.t) (view : DataView) :
  TagRecord.data r = Some view ->
  text_based r = true ->
  exists s,
    TextDecoder_decode new_TextDecoder view = Normal s
    /\ decodeRecord r
       = Normal (DecodedRecord.mk (TagRecord.recordType r)
                   (or_null (TagRecord.mediaType r)) (or_null (TagRecord.id r))
                   (Some s)).
Proof.
  intros Hd Ht. destruct (TextDecoder_decode_total view) as [s Hs].
  exists s. split; [exact Hs|].
  unfold decodeRecord. rewrite Hd, Ht, Hs. reflexivity.
Qed.

Lemma decodeRecord_hex (r : TagRecord.t) (view : DataView) :
  TagRecord.data r = Some view ->
  text_based r = false ->
  decodeRecord r
  = Normal (DecodedRecord.mk (TagRecord.recordType r)
              (or_null (TagRecord.mediaType r)) (or_null (TagRecord.id r))
              (Some (str "[Hex] " ++ join [colon] (map hex_pair view)))).
Proof.
  intros Hd Ht. unfold decodeRecord.
  rewrite Hd, Ht, dataViewToHex_pairs. reflexivity.
Qed.

(** The [try] block returns on every record and view: with a decoder
    that is not fatal and a hex dump that stays inside the view, the
    [catch] block is not entered. *)
Lemma try_block_returns (r : TagRecord.t) (view : DataView) :
  exists p,
    (if text_based r
     then TextDecoder_decode new_TextDecoder view
     else hex <- dataViewToHex view ;; Normal (str "[Hex] " ++ hex))
    = Normal p.
Proof.
  destruct (text_based r).
  - apply TextDecoder_decode_total.
  - rewrite dataViewToHex_pairs. cbn [bind]. eauto.
Qed.

(** No exception leaves [decodeRecord]. *)
Lemma decodeRecord_never_raises (r : TagRecord.t) :
  exists d, decodeRecord r = Normal d.
Proof.
  destruct (TagRecord.data r) as [view|] eqn:Hd.
  - destruct (text_based r) eqn:Ht.
    + destruct (decodeRecord_text r view Hd Ht) as (s & _ & ->). eauto.
    + rewrite (decodeRecord_hex r view Hd Ht). eauto.
  - rewrite (decodeRecord_no_data r Hd). eauto.
Qed.

Lemma text_based_true (r : TagRecord.t) :
  TagRecord.recordType r = str "text"
  \/ TagRecord.recordType r = str "url"
  \/ (exists m, TagRecord.mediaType r = Some m /\ startsWith m (str "text/") = true) ->
  text_based r = true.
Proof.
  unfold text_based. intros [H|[H|(m & Hm & Hs)]].
  - apply js_eqb_eq in H. rewrite H. reflexivity.
  - apply js_eqb_eq in H. rewrite H, orb_true_r. reflexivity.
  - rewrite Hm, Hs, (startsWith_nonempty m (str "text/")) by (discriminate || exact Hs).
    apply orb_true_r.
Qed.

Lemma text_based_false (r : TagRecord.t) :
  TagRecord.recordType r <> str "text" ->
  TagRecord.recordType r <> str "url" ->
  (forall m, TagRecord.mediaType r = Some m -> startsWith m (str "text/") = false) ->
  text_based r = false.
Proof.
  unfold text_based. intros H1 H2 H3.
  apply js_eqb_neq in H1, H2. rewrite H1, H2.
  destruct (TagRecord.mediaType r) as [m|]; [|reflexivity].
  rewrite (H3 m eq_refl). apply andb_false_r.
Qed.

End DecodeRecord.

(** C2.  The [decoder] of [decodeRecord] is made by [new TextDecoder()]
    and is not fatal: on a text record whose data is the single byte FF,
    which is no UTF-8, [decode] returns U+FFFD, the [catch] block is not
    entered, and the payload is not the fallback
    ["[Binary Data: 1 bytes]"]. *)
Theorem decodeRecord_malformed_text :
  decodeRecord (TagRecord.mk (str "text") None None (Some [xff]))
  = Normal (DecodedRecord.mk (str "text") None None (Some [0xFFFD]))
  /\ binary_fallback [xff] = str "[Binary Data: 1 bytes]"
  /\ [0xFFFD] <> binary_fallback [xff].
Proof. repeat split. discriminate. Qed.

(** C4 as stated fails: the bytes EF BB BF 68 69 are valid UTF-8, the
    encoding of U+FEFF, h, i, and the payload of a text record with
    these data is ["hi"], not their UTF-8 decoding: the decoder of
    [decodeRecord] drops the byte order mark. *)
Lemma decodeRecord_text_drops_bom :
  let cps := [0xFEFF; 0x68; 0x69] in
  let view := [xef; xbb; xbf; x68; x69] in
  Forall (fun c => is_scalar c = true) cps
  /\ view = UTF8_encode cps
  /\ decodeRecord (TagRecord.mk (str "text") None None (Some view))
     = Normal (DecodedRecord.mk (str "text") None None (Some (str "hi")))
  /\ Some (str "hi") <> Some (utf16_encode cps).
Proof.
  cbv zeta. split; [repeat constructor|]. repeat split. discriminate.
Qed.

(** C4, amended.  For a record with data, of record type ["text"] or
    ["url"] or of a media type that begins with ["text/"], whose data
    is valid UTF-8 (the encoding of the scalar values [cps]), the
    payload is the UTF-8 decoding of the data, the string of [cps],
    without its first character when that is the byte order mark
    U+FEFF; it is the whole decoding when the data do not begin with a
    byte order mark. *)
Theorem decodeRecord_text_payload :
  forall (r : TagRecord.t) (view : DataView) (cps : list N),
    TagRecord.data r = Some view ->
    TagRecord.recordType r = str "text"
    \/ TagRecord.recordType r = str "url"
    \/ (exists m, TagRecord.mediaType r = Some m /\ startsWith m (str "text/") = true) ->
    Forall (fun c => is_scalar c = true) cps ->
    view = UTF8_encode cps ->
    exists d,
      decodeRecord r = Normal d
      /\ DecodedRecord.payload d = Some (utf16_encode (strip_bom cps))
      /\ (hd_error cps <> Some 0xFEFF ->
          DecodedRecord.payload d = Some (utf16_encode cps)).
Proof.
  intros r view cps Hd Ht Hcps ->.
  destruct (decodeRecord_text r _ Hd (text_based_true r Ht)) as (s & Hs & Hr).
  rewrite TextDecoder_decode_encode in Hs by exact Hcps. injection Hs as <-.
  eexists. split; [exact Hr|]. cbn [DecodedRecord.payload].
  split; [reflexivity|]. intros Hne. f_equal. f_equal.
  destruct cps as [|c cps']; [reflexivity|]. cbn [strip_bom hd_error] in *.
  destruct (N.eqb_spec c 0xFEFF) as [->|_]; [now elim Hne|reflexivity].
Qed.

(** C4, amended, on a record of media type ["text/plain"] whose data
    are the bytes EF BB BF 68 C3 A9: a byte order mark, h and U+00E9. *)
Lemma decodeRecord_text_payload_witness :
  exists d,
    decodeRecord (TagRecord.mk (str "mime") (Some (str "text/plain")) None
                    (Some [xef; xbb; xbf; x68; xc3; xa9]))
    = Normal d
    /\ DecodedRecord.payload d
       = Some (utf16_encode (strip_bom [0xFEFF; 0x68; 0xE9]))
    /\ (hd_error [0xFEFF; 0x68; 0xE9] <> Some 0xFEFF ->
        DecodedRecord.payload d = Some (utf16_encode [0xFEFF; 0x68; 0xE9])).
Proof.
  apply (decodeRecord_text_payload
           (TagRecord.mk (str "mime") (Some (str "text/plain")) None
              (Some [xef; xbb; xbf; x68; xc3; xa9]))
           [xef; xbb; xbf; x68; xc3; xa9] [0xFEFF; 0x68; 0xE9]).
  - reflexivity.
  - right. right. exists (str "text/plain"). split; reflexivity.
  - repeat constructor.
  - reflexivity.
Defined.

(** C5.  For a record with data whose record type is neither ["text"]
    nor ["url"] and whose media type does not begin with ["text/"], the
    payload is ["[Hex] "] followed by the hex dump of the data that
    [dataViewToHex] returns. *)
Theorem decodeRecord_hex_payload :
  forall (r : TagRecord.t) (view : DataView),
    TagRecord.data r = Some view ->
    TagRecord.recordType r <> str "text" ->
    TagRecord.recordType r <> str "url" ->
    (forall m, TagRecord.mediaType r = Some m -> startsWith m (str "text/") = false) ->
    exists d hex,
      decodeRecord r = Normal d
      /\ dataViewToHex view = Normal hex
      /\ DecodedRecord.payload d = Some (str "[Hex] " ++ hex).
Proof.
  intros r view Hd H1 H2 H3.
  eexists. eexists. split; [|split].
  - apply (decodeRecord_hex r view Hd). now apply text_based_false.
  - apply dataViewToHex_pairs.
  - reflexivity.
Qed.

(** C5 on a record of media type ["image/png"] whose data are the
    bytes 0A FF. *)
Lemma decodeRecord_hex_payload_witness :
  exists d hex,
    decodeRecord (TagRecord.mk (str "mime") (Some (str "image/png")) None
                    (Some [x0a; xff]))
    = Normal d
    /\ dataViewToHex [x0a; xff] = Normal hex
    /\ DecodedRecord.payload d = Some (str "[Hex] " ++ hex).
Proof.
  apply (decodeRecord_hex_payload
           (TagRecord.mk (str "mime") (Some (str "image/png")) None
              (Some [x0a; xff]))
           [x0a; xff]).
  - reflexivity.
  - discriminate.
  - discriminate.
  - intros m Hm. injection Hm as <-. reflexivity.
Defined.

(** The record [decodeRecord] returns, but for its payload. *)
Lemma decodeRecord_shape (r : TagRecord.t) :
  exists payload,
    decodeRecord r
    = Normal (DecodedRecord.mk (TagRecord.recordType r)
                (or_null (TagRecord.mediaType r)) (or_null (TagRecord.id r))
                payload)
    /\ (TagRecord.data r = None -> payload = None).
Proof.
  destruct (TagRecord.data r) as [view|] eqn:Hd.
  - destruct (text_based r) eqn:Ht.
    + destruct (decodeRecord_text r view Hd Ht) as (s & _ & ->).
      eexists. split; [reflexivity|discriminate].
    + rewrite (decodeRecord_hex r view Hd Ht).
      eexists. split; [reflexivity|discriminate].
  - rewrite (decodeRecord_no_data r Hd). eexists. split; reflexivity.
Qed.

Lemma or_null_cases (v : option jsstring) :
  or_null v = match v with
              | Some (c :: m) => Some (c :: m)
              | Some [] | None => None
              end.
Proof. destruct v as [[|c m]|]; reflexivity. Qed.

(** C6 as stated fails: an [id] and a [mediaType] that are present and
    empty do not pass through as they are, they become [null]. *)
Lemma decodeRecord_empty_fields_not_kept :
  let r := TagRecord.mk (str "mime") (Some (str "")) (Some (str "")) None in
  exists d,
    decodeRecord r = Normal d
    /\ DecodedRecord.mediaType d <> TagRecord.mediaType r
    /\ DecodedRecord.id d <> TagRecord.id r.
Proof.
  eexists. split; [reflexivity|]. split; discriminate.
Qed.

(** C6, amended.  [decodeRecord] leaves [payload] undefined when the
    record has no data, copies [recordType], and passes [mediaType] and
    [id] through when they are present and not empty; each is [null]
    when it is absent or the empty string. *)
Theorem decodeRecord_fields :
  forall r : TagRecord.t,
  exists d,
    decodeRecord r = Normal d
    /\ (TagRecord.data r = None -> DecodedRecord.payload d = None)
    /\ DecodedRecord.recordType d = TagRecord.recordType r
    /\ DecodedRecord.mediaType d
       = match TagRecord.mediaType r with
         | Some (c :: m) => Some (c :: m)
         | Some [] | None => None
         end
    /\ DecodedRecord.id d
       = match TagRecord.id r with
         | Some (c :: i) => Some (c :: i)
         | Some [] | None => None
         end.
Proof.
  intros r. destruct (decodeRecord_shape r) as (payload & Hr & Hp).
  eexists. split; [exact Hr|]. cbn. rewrite <- !or_null_cases. auto.
Qed.

(** C10.  A [mediaType] or an [id] that is the empty string is mapped to
    [null]: the decoded record is the one of the same record with the
    field absent. *)
Theorem decodeRecord_empty_is_absent :
  forall (recordType : jsstring) (mediaType id : option jsstring)
         (data : option DataView),
    decodeRecord (TagRecord.mk recordType (Some (str "")) id data)
    = decodeRecord (TagRecord.mk recordType None id data)
    /\ decodeRecord (TagRecord.mk recordType mediaType (Some (str "")) data)
       = decodeRecord (TagRecord.mk recordType mediaType None data)
    /\ (exists d,
          decodeRecord (TagRecord.mk recordType (Some (str "")) id data) = Normal d
          /\ DecodedRecord.mediaType d = None)
    /\ (exists d,
          decodeRecord (TagRecord.mk recordType mediaType (Some (str "")) data) = Normal d
          /\ DecodedRecord.id d = None).
Proof.
  intros recordType mediaType id data.
  split; [reflexivity|]. split; [reflexivity|]. split.
  - destruct (decodeRecord_shape (TagRecord.mk recordType (Some (str "")) id data))
      as (payload & Hr & _).
    eexists. split; [exact Hr|reflexivity].
  - destruct (decodeRecord_shape (TagRecord.mk recordType mediaType (Some (str "")) data))
      as (payload & Hr & _).
    eexists. split; [exact Hr|reflexivity].
Qed.

(** ** Session manager *)

(** C1 as stated fails: [writeNfc("mime", "hello", "")] hands its
    message to the tag writer and is fulfilled with it; it does not
    fail before the write. *)
Lemma writeNfc_empty_media_type_written :
  let message :=
    mkMessage [] [RecordInit.mk (str "mime") (Some (str ""))
                    (Bytes [x68; x65; x6c; x6c; x6f])] in
  writeNfc (str "mime") (str "hello") (Some (str "")) ready
  = (set_written [message] ready, Normal message)
  /\ ~ fails_before_write "MissingMediaType" ready
        (writeNfc (str "mime") (str "hello") (Some (str "")) ready).
Proof.
  split; [reflexivity|].
  intros [(e & He & _) _]. discriminate He.
Qed.

(** How [writeNfc] settles for record type ["mime"], whatever the media
    type. *)
Lemma writeNfc_mime (p : Platform) (payload : jsstring)
    (mediaType : option jsstring) :
  hasNDEFReader p = true ->
  let message :=
    mkMessage [] [RecordInit.mk (str "mime") mediaType
                    (Bytes (TextEncoder_encode payload))] in
  writeNfc (str "mime") payload mediaType p
  = (set_written (message :: written p) p,
     match write_verdict p message with
     | None => Normal message
     | Some e => Throw e
     end).
Proof.
  intros Hp message.
  unfold writeNfc, new_NDEFReader, NDEFReader_write. rewrite Hp.
  change (js_eqb (str "mime") (str "mime")) with true. cbv iota.
  fold message. destruct (write_verdict p message); reflexivity.
Qed.

(** C1, amended.  [writeNfc] does not look at the media type: with
    record type ["mime"] and a media type that is absent or empty it
    hands the one-record message, of that media type and the UTF-8
    bytes of the payload, to the tag writer, and settles as the write
    does.  The check is made by [handleWrite]: for record type ["mime"]
    and a MIME type that is empty once trimmed it sets the warning
    status and calls neither [writeNfc] nor the platform. *)
Theorem writeNfc_mime_unchecked :
  forall (p : Platform) (payload : jsstring) (mediaType : option jsstring)
         (ui : UI),
    hasNDEFReader p = true ->
    mediaType = None \/ mediaType = Some (str "") ->
    recordType_value ui = str "mime" ->
    trim (mimeType_value ui) = str "" ->
    let message :=
      mkMessage [] [RecordInit.mk (str "mime") mediaType
                      (Bytes (TextEncoder_encode payload))] in
    writeNfc (str "mime") payload mediaType p
    = (set_written (message :: written p) p,
       match write_verdict p message with
       | None => Normal message
       | Some e => Throw e
       end)
    /\ handleWrite ui p
       = (setStatus (str "Please provide a MIME type for this record.")
                    (str "warn") ui, p).
Proof.
  intros p payload mediaType ui Hp _ Ht Hm message. split.
  - apply writeNfc_mime, Hp.
  - unfold handleWrite. rewrite Ht, Hm. reflexivity.
Qed.

(** C1, amended, on the granting platform, with no media type, and on
    the form whose MIME type is two blanks. *)
Lemma writeNfc_mime_unchecked_witness :
  let message :=
    mkMessage [] [RecordInit.mk (str "mime") None
                    (Bytes (TextEncoder_encode (str "hello")))] in
  writeNfc (str "mime") (str "hello") None ready
  = (set_written (message :: written ready) ready,
     match write_verdict ready message with
     | None => Normal message
     | Some e => Throw e
     end)
  /\ handleWrite blank_mime_form ready
     = (setStatus (str "Please provide a MIME type for this record.")
                  (str "warn") blank_mime_form, ready).
Proof.
  apply (writeNfc_mime_unchecked ready (str "hello") None blank_mime_form).
  - reflexivity.
  - left. reflexivity.
  - reflexivity.
  - reflexivity.
Defined.

(** How [writeMultiDemo] settles on any platform. *)
Lemma writeMultiDemo_settles (p : Platform) :
  writeMultiDemo p
  = if hasNDEFReader p
    then (set_written (demo_message :: written p) p,
          match write_verdict p demo_message with
          | None => Normal demo_message
          | Some e => Throw e
          end)
    else (p, Throw (ReferenceError "NDEFReader is not defined")).
Proof.
  unfold writeMultiDemo, new_NDEFReader, NDEFReader_write.
  destruct (hasNDEFReader p); [|reflexivity].
  change (write_verdict p _) with (write_verdict p demo_message).
  destruct (write_verdict p demo_message); reflexivity.
Qed.

(** C7.  On a platform with the tag writer, every call of
    [writeMultiDemo] builds one and the same message and hands it to the
    writer, whatever was written before, and so does the call after it:
    three records, text, url and mime in this order, the mime record of
    media type ["text/plain"] with the UTF-8 bytes of its plain text.
    The call is fulfilled with that message when the writer fulfils the
    write, and rejected with the writer's error otherwise. *)
Theorem writeMultiDemo_fixed_message :
  forall p : Platform,
    hasNDEFReader p = true ->
    writeMultiDemo p
    = (set_written (demo_message :: written p) p,
       match write_verdict p demo_message with
       | None => Normal demo_message
       | Some e => Throw e
       end)
    /\ written (fst (writeMultiDemo (fst (writeMultiDemo p))))
       = demo_message :: demo_message :: written p
    /\ List.length (records demo_message) = 3%nat
    /\ map RecordInit.recordType (records demo_message)
       = [str "text"; str "url"; str "mime"]
    /\ nth_error (records demo_message) 2
       = Some (RecordInit.mk (str "mime") (Some (str "text/plain"))
                 (Bytes (TextEncoder_encode (str "sample mime payload"))))
    /\ TextEncoder_encode (str "sample mime payload")
       = list_byte_of_string "sample mime payload".
Proof.
  intros p Hp.
  assert (H1 : writeMultiDemo p
               = (set_written (demo_message :: written p) p,
                  match write_verdict p demo_message with
                  | None => Normal demo_message
                  | Some e => Throw e
                  end)).
  { rewrite writeMultiDemo_settles, Hp. reflexivity. }
  split; [exact H1|]. split.
  - rewrite H1. cbn [fst]. rewrite writeMultiDemo_settles.
    cbn [hasNDEFReader write_verdict written set_written].
    rewrite Hp. reflexivity.
  - repeat split.
Qed.

(** C7 on the granting platform: the call is fulfilled with the
    message. *)
Lemma writeMultiDemo_fixed_message_witness :
  writeMultiDemo ready
  = (set_written (demo_message :: written ready) ready,
     match write_verdict ready demo_message with
     | None => Normal demo_message
     | Some e => Throw e
     end)
  /\ written (fst (writeMultiDemo (fst (writeMultiDemo ready))))
     = demo_message :: demo_message :: written ready
  /\ List.length (records demo_message) = 3%nat
  /\ map RecordInit.recordType (records demo_message)
     = [str "text"; str "url"; str "mime"]
  /\ nth_error (records demo_message) 2
     = Some (RecordInit.mk (str "mime") (Some (str "text/plain"))
               (Bytes (TextEncoder_encode (str "sample mime payload"))))
  /\ TextEncoder_encode (str "sample mime payload")
     = list_byte_of_string "sample mime payload".
Proof.
  apply (writeMultiDemo_fixed_message ready); reflexivity.
Defined.

(** On the granting platform the call is fulfilled with the message. *)
Example writeMultiDemo_fulfilled :
  writeMultiDemo ready = (set_written [demo_message] ready, Normal demo_message).
Proof. reflexivity. Qed.

Section StopScan.

Lemma abort_aborted (c : AbortController) (p : Platform) :
  is_aborted c p = true -> AbortController_abort c p = (p, Normal tt).
Proof. intros H. unfold AbortController_abort. now rewrite H. Qed.

Lemma aborted_after_abort (c : AbortController) (p : Platform) :
  is_aborted c (fst (AbortController_abort c p)) = true.
Proof.
  unfold AbortController_abort. cbn [fst].
  destruct (is_aborted c p) eqn:H; [exact H|].
  unfold is_aborted. cbn [aborted set_abort existsb].
  now rewrite Nat.eqb_refl.
Qed.

Lemma filter_absent (c : AbortController) (l : list AbortController) :
  ~ In c l -> filter (fun s => negb (Nat.eqb c s)) l = l.
Proof.
  induction l as [|s l IH]; [reflexivity|]. cbn [In filter]. intros H.
  destruct (Nat.eqb_spec c s) as [->|Hne]; [tauto|].
  cbn [negb]. rewrite IH by tauto. reflexivity.
Qed.

End StopScan.

(** C8 as stated fails: on a handle that no scan was started with,
    [stopScan] is not a no-op.  It aborts the signal of the handle, and
    a [startScan] with that signal, which would have been fulfilled, is
    rejected afterwards. *)
Lemma stopScan_unstarted_aborts :
  stopScan (Some 0%nat) ready = (set_abort [0%nat] [] ready, Normal tt)
  /\ stopScan (Some 0%nat) ready <> (ready, Normal tt)
  /\ (exists ndef,
        startScan 0%nat recorder ready
        = (set_abort [] [0%nat] ready, Normal ndef))
  /\ (exists e,
        startScan 0%nat recorder (fst (stopScan (Some 0%nat) ready))
        = (fst (stopScan (Some 0%nat) ready), Throw e)
        /\ exn_name e = "AbortError"%string).
Proof.
  split; [reflexivity|]. split; [|split].
  - intros H. apply (f_equal (fun out => aborted (fst out))) in H. discriminate H.
  - eexists. reflexivity.
  - eexists. split; reflexivity.
Qed.

(** C8, amended.  [stopScan] returns normally on every handle and every
    platform state; a second call in a row changes nothing and returns
    normally too; on a handle that is absent, or whose signal is
    aborted, it changes nothing.  On a handle that no scan was started
    with it ends no scan and writes nothing, but when the signal of the
    handle was not aborted it aborts it, so that a later [startScan]
    with that signal is rejected. *)
Theorem stopScan_idempotent :
  forall (controller : option AbortController) (p : Platform),
    snd (stopScan controller p) = Normal tt
    /\ stopScan controller (fst (stopScan controller p))
       = (fst (stopScan controller p), Normal tt)
    /\ stopScan None p = (p, Normal tt)
    /\ (forall c, is_aborted c p = true -> stopScan (Some c) p = (p, Normal tt))
    /\ (forall c, ~ In c (scanning p) ->
                  scanning (fst (stopScan (Some c) p)) = scanning p
                  /\ written (fst (stopScan (Some c) p)) = written p)
    /\ (forall c, ~ In c (scanning p) -> is_aborted c p = false ->
                  stopScan (Some c) p
                  = (set_abort (c :: aborted p) (scanning p) p, Normal tt)
                  /\ is_aborted c (fst (stopScan (Some c) p)) = true
                  /\ forall (App : Type) (onReading : Callback App),
                       hasNDEFReader p = true ->
                       exists e,
                         startScan c onReading (fst (stopScan (Some c) p))
                         = (fst (stopScan (Some c) p), Throw e)
                         /\ exn_name e = "AbortError"%string).
Proof.
  intros controller p. split; [|split; [|split; [|split; [|split]]]].
  - destruct controller; reflexivity.
  - destruct controller as [c|]; [|reflexivity]. cbn [stopScan].
    apply abort_aborted, aborted_after_abort.
  - reflexivity.
  - intros c H. apply abort_aborted, H.
  - intros c H. cbn [stopScan]. unfold AbortController_abort. cbn [fst].
    destruct (is_aborted c p); [split; reflexivity|].
    cbn [scanning written set_abort]. split; [now apply filter_absent|reflexivity].
  - intros c Hs Ha. cbn [stopScan].
    pose proof (aborted_after_abort c p) as Hab.
    split; [|split; [exact Hab|]].
    + unfold AbortController_abort. rewrite Ha, (filter_absent c _ Hs). reflexivity.
    + intros App onReading Hp.
      unfold startScan, new_NDEFReader, NDEFReader_scan.
      assert (Hp' : hasNDEFReader (fst (AbortController_abort c p)) = true).
      { unfold AbortController_abort. cbn [fst]. now destruct (is_aborted c p). }
      rewrite Hp', Hab. eexists. split; reflexivity.
Qed.

(** Stopping a scan twice: the first call aborts the signal and ends
    the scan bound to it, the second changes nothing. *)
Example stopScan_twice :
  let scanning_0 := set_abort [] [0%nat] ready in
  stopScan (Some 0%nat) scanning_0 = (set_abort [0%nat] [] ready, Normal tt)
  /\ stopScan (Some 0%nat) (fst (stopScan (Some 0%nat) scanning_0))
     = (set_abort [0%nat] [] ready, Normal tt).
Proof. split; reflexivity. Qed.

(** ** Scanning *)

Section Reading.

Variable App : Type.
Variable onReading : Callback App.

Lemma mapM_decodeRecord (rs : list TagRecord.t) :
  exists ds,
    mapM decodeRecord rs = Normal ds
    /\ Forall2 (fun r d => decodeRecord r = Normal d) rs ds.
Proof.
  induction rs as [|r rs (ds & Hds & Hall)].
  - exists []. split; [reflexivity|constructor].
  - destruct (decodeRecord_never_raises r) as [d Hd].
    exists (d :: ds). cbn [mapM]. rewrite Hd, Hds. split; [reflexivity|].
    now constructor.
Qed.

(** The handler calls [onReading] once. *)
Lemma onreading_handler_calls (event : NDEFReadingEvent) :
  exists inv,
    reading_of event inv
    /\ forall a, onreading_handler onReading event a = call onReading a inv.
Proof.
  destruct (mapM_decodeRecord (records (message event))) as (ds & Hds & Hall).
  exists (mkInvocation (mkMessage (others (message event)) ds)
                       (serialNumber event)
                       (match target event with
                        | Some t => tech t
                        | None => None
                        end)).
  split.
  - repeat split. exact Hall.
  - intros a. unfold onreading_handler, call. rewrite Hds. reflexivity.
Qed.

Lemma startScan_reader (signal : AbortController) (p p' : Platform)
    (ndef : NDEFReader App) :
  startScan signal onReading p = (p', Normal ndef) ->
  onreading ndef = Some (onreading_handler onReading).
Proof.
  unfold startScan. destruct (new_NDEFReader p); [|discriminate].
  destruct (NDEFReader_scan signal p) as [p1 [[]|e]]; [|discriminate].
  intros H. injection H as _ <-. reflexivity.
Qed.

Lemma deliver_calls (ndef : NDEFReader App) (events : list NDEFReadingEvent) :
  onreading ndef = Some (onreading_handler onReading) ->
  exists trace,
    Forall2 reading_of events trace
    /\ forall a, deliver ndef events a = fold_left (call onReading) trace a.
Proof.
  intros Hh. unfold deliver.
  induction events as [|event events (trace & Hall & Hrun)].
  - exists []. split; [constructor|reflexivity].
  - destruct (onreading_handler_calls event) as (inv & Hinv & Hcall).
    exists (inv :: trace). split; [now constructor|].
    intros a. cbn [fold_left]. unfold fire_reading at 2.
    rewrite Hh, Hcall. apply Hrun.
Qed.

End Reading.

(** C9.  Once [startScan] is fulfilled, for every sequence of reading
    events fired at the reader, [onReading] is called exactly once per
    event, in the order of the events, each time with the event's
    message in which the records are replaced by what [decodeRecord]
    returns for them, in their order, and with the serial number and
    the technology name of the event where it has them. *)
Theorem startScan_readings :
  forall (App : Type) (onReading : Callback App) (signal : AbortController)
         (p p' : Platform) (ndef : NDEFReader App)
         (events : list NDEFReadingEvent),
    startScan signal onReading p = (p', Normal ndef) ->
    exists trace : list Invocation,
      Forall2 reading_of events trace
      /\ forall a : App, deliver ndef events a = fold_left (call onReading) trace a.
Proof.
  intros App onReading signal p p' ndef events Hs.
  apply deliver_calls. exact (startScan_reader App onReading signal p p' ndef Hs).
Qed.

(** C9 on the reader that [startScan] leaves on the granting platform,
    for the two events and the recording callback. *)
Lemma startScan_readings_witness :
  exists trace : list Invocation,
    Forall2 reading_of [event_one; event_three] trace
    /\ forall a : list Invocation,
         deliver (mkReader
                    (Some (console_log
                             (str "Cannot read data from the NFC tag. Try another one?")))
                    (Some (onreading_handler recorder)))
                 [event_one; event_three] a
         = fold_left (call recorder) trace a.
Proof.
  apply (startScan_readings (list Invocation) recorder 0%nat ready
           (set_abort [] [0%nat] ready)).
  reflexivity.
Defined.

(** The scenario of two tag messages, of one and of three records: two
    calls, with one and with three decoded records. *)
Example startScan_one_then_three :
  match snd (startScan 0%nat recorder ready) with
  | Normal ndef =>
      map (fun inv => List.length (records (inv_message inv)))
          (deliver ndef [event_one; event_three] [])
      = [1%nat; 3%nat]
  | Throw _ => False
  end.
Proof. reflexivity. Qed.

(* ================================================================== *)
(** * Further properties *)
(* ================================================================== *)

(** The code units of a literal, computed. *)
Ltac eval_str :=
  repeat match goal with
         | |- context [str ?s] =>
             let v := eval vm_compute in (str s) in
             change (str s) with v
         end.

(** ** escapeHtml *)

Section EscapeHtml.

Lemma escape_unit_plain (c : N) :
  is_html_special c = false -> escape_unit c = [c].
Proof.
  unfold is_html_special, escape_unit. intros H.
  destruct (c =? 38); [discriminate|]. destruct (c =? 60); [discriminate|].
  destruct (c =? 62); [discriminate|]. destruct (c =? 39); [discriminate|].
  destruct (c =? 34); [discriminate|]. reflexivity.
Qed.

Lemma escape_unit_special (c : N) :
  is_html_special c = true ->
  exists e, escape_unit c = 38 :: e /\ e <> [] /\ unescape_from 0 (38 :: e) = [c]
            /\ forall rest, unescape_from 0 (38 :: e ++ rest) = c :: unescape_from 0 rest.
Proof.
  unfold is_html_special, escape_unit. intros H.
  destruct (c =? 38) eqn:E1; [apply N.eqb_eq in E1|
  destruct (c =? 60) eqn:E2; [apply N.eqb_eq in E2|
  destruct (c =? 62) eqn:E3; [apply N.eqb_eq in E3|
  destruct (c =? 39) eqn:E4; [apply N.eqb_eq in E4|
  destruct (c =? 34) eqn:E5; [apply N.eqb_eq in E5|discriminate]]]]];
    subst c; eexists; (split; [reflexivity|]); (split; [discriminate|]);
    (split; [reflexivity|]); intros rest; destruct rest; reflexivity.
Qed.

Lemma escapeHtml_cons (c : N) (s : jsstring) :
  escapeHtml (c :: s) = escape_unit c ++ escapeHtml s.
Proof. reflexivity. Qed.

Lemma escape_unit_no_markup (c : N) :
  Forall (fun d => d <> 60 /\ d <> 62 /\ d <> 39 /\ d <> 34) (escape_unit c).
Proof.
  unfold escape_unit.
  destruct (N.eqb_spec c 38); [|destruct (N.eqb_spec c 60);
    [|destruct (N.eqb_spec c 62); [|destruct (N.eqb_spec c 39);
      [|destruct (N.eqb_spec c 34)]]]]; eval_str;
    repeat constructor; try discriminate; assumption.
Qed.

Lemma escape_unit_length (c : N) :
  (1 <= List.length (escape_unit c))%nat
  /\ (is_html_special c = true -> 1 < List.length (escape_unit c))%nat.
Proof.
  destruct (is_html_special c) eqn:H.
  - destruct (escape_unit_special c H) as (e & -> & He & _).
    destruct e; [congruence|]. cbn [List.length]. split; [lia|intros _; lia].
  - rewrite escape_unit_plain by exact H. cbn. split; [lia|discriminate].
Qed.

Lemma escapeHtml_length (s : jsstring) :
  (List.length s <= List.length (escapeHtml s))%nat.
Proof.
  induction s as [|c s IH]; [reflexivity|].
  rewrite escapeHtml_cons, length_app. cbn [List.length].
  pose proof (escape_unit_length c) as [H _]. lia.
Qed.

Lemma escapeHtml_plain (s : jsstring) :
  existsb is_html_special s = false -> escapeHtml s = s.
Proof.
  induction s as [|c s IH]; [reflexivity|]. cbn [existsb].
  intros H. apply orb_false_elim in H. destruct H as [Hc Hs].
  rewrite escapeHtml_cons, escape_unit_plain, IH by assumption. reflexivity.
Qed.

Lemma escapeHtml_same_length (s : jsstring) :
  List.length (escapeHtml s) = List.length s ->
  existsb is_html_special s = false.
Proof.
  induction s as [|c s IH]; [reflexivity|].
  rewrite escapeHtml_cons, length_app. cbn [List.length existsb]. intros H.
  pose proof (escape_unit_length c) as [H1 H2].
  pose proof (escapeHtml_length s) as H3.
  destruct (is_html_special c).
  - specialize (H2 eq_refl). lia.
  - apply IH. lia.
Qed.

Lemma escapeHtml_has_ampersand (s : jsstring) :
  existsb is_html_special s = true ->
  existsb is_html_special (escapeHtml s) = true.
Proof.
  induction s as [|c s IH]; [discriminate|]. cbn [existsb].
  rewrite escapeHtml_cons, existsb_app. intros H.
  destruct (is_html_special c) eqn:Hc.
  - destruct (escape_unit_special c Hc) as (e & -> & _). reflexivity.
  - cbn [orb] in H. rewrite (IH H). apply orb_true_r.
Qed.

End EscapeHtml.

(** X1.  The output of [escapeHtml] holds no angle bracket, apostrophe
    or double quote, whatever the input. *)
Theorem escapeHtml_no_markup :
  forall s : jsstring,
    Forall (fun c => c <> 60 /\ c <> 62 /\ c <> 39 /\ c <> 34) (escapeHtml s).
Proof.
  induction s as [|c s IH]; [constructor|].
  rewrite escapeHtml_cons. apply Forall_app. split; [apply escape_unit_no_markup|exact IH].
Qed.

(** X2.  Escaping loses nothing: reading the five entities back gives
    the input again, so two different strings are never escaped to the
    same text. *)
Theorem escapeHtml_unescape :
  forall s : jsstring,
    unescapeHtml (escapeHtml s) = s
    /\ forall s', escapeHtml s = escapeHtml s' -> s = s'.
Proof.
  assert (R : forall s, unescapeHtml (escapeHtml s) = s).
  { unfold unescapeHtml. induction s as [|c s IH]; [reflexivity|].
    rewrite escapeHtml_cons. destruct (is_html_special c) eqn:Hc.
    - destruct (escape_unit_special c Hc) as (e & -> & _ & _ & Hrest).
      cbn [app]. rewrite Hrest, IH. reflexivity.
    - rewrite escape_unit_plain by exact Hc. cbn [app unescape_from].
      assert ((c =? 38) = false) as ->.
      { unfold is_html_special in Hc. destruct (c =? 38); [discriminate|reflexivity]. }
      rewrite IH. reflexivity. }
  intros s. split; [apply R|].
  intros s' H. rewrite <- (R s), <- (R s'), H. reflexivity.
Qed.

(** X3.  [escapeHtml] goes through concatenation; it returns its input
    unchanged exactly when none of the five characters occurs in it; and
    escaping twice is the same as escaping once only then. *)
Theorem escapeHtml_fixed :
  forall s t : jsstring,
    escapeHtml (s ++ t) = escapeHtml s ++ escapeHtml t
    /\ (escapeHtml s = s <-> existsb is_html_special s = false)
    /\ (escapeHtml (escapeHtml s) = escapeHtml s
        <-> existsb is_html_special s = false).
Proof.
  intros s t. split; [apply flat_map_app|]. split.
  - split; [|apply escapeHtml_plain].
    intros H. apply escapeHtml_same_length. now rewrite H.
  - split.
    + intros H. apply (f_equal (@List.length N)) in H.
      apply escapeHtml_same_length in H.
      destruct (existsb is_html_special s) eqn:E; [|reflexivity].
      apply escapeHtml_has_ampersand in E. congruence.
    + intros H. now rewrite !(escapeHtml_plain s H).
Qed.

(** ** dataViewToHex, further *)

Section HexDumpMore.

Lemma join_app (sep : jsstring) (a b : list jsstring) :
  a <> [] -> b <> [] ->
  join sep (a ++ b) = join sep a ++ sep ++ join sep b.
Proof.
  intros Ha Hb. induction a as [|p a IH]; [congruence|].
  destruct a as [|q a].
  - destruct b as [|r b]; [congruence|]. reflexivity.
  - change (join sep ((p :: q :: a) ++ b))
      with (p ++ sep ++ join sep ((q :: a) ++ b)).
    rewrite IH by discriminate.
    change (join sep (p :: q :: a)) with (p ++ sep ++ join sep (q :: a)).
    now rewrite <- !app_assoc.
Qed.

Lemma parse_hex_dump (B : DataView) :
  parse_hex (join [colon] (map hex_pair B)) = Some B.
Proof.
  unfold parse_hex.
  assert (Hpairs : hex_pairs (join [colon] (map hex_pair B)) = map hex_pair B).
  { destruct B as [|b B]; [reflexivity|]. unfold hex_pairs.
    assert (Hne : join [colon] (map hex_pair (b :: B)) <> [])
      by (destruct B; discriminate).
    destruct (join [colon] (map hex_pair (b :: B))) eqn:E; [congruence|].
    rewrite <- E. apply split_join; [|discriminate].
    apply Forall_map, Forall_forall. intros b' _.
    eapply Forall_impl; [|apply hex_pair_digits].
    intros c. apply upper_hex_not_colon. }
  rewrite Hpairs. apply all_some_map, hex_pair_parse.
Qed.

End HexDumpMore.

(** X4.  The dump of two views put end to end, neither empty, is the
    two dumps with a colon between them. *)
Theorem dataViewToHex_app :
  forall a b : DataView,
    a <> [] -> b <> [] ->
    exists ha hb,
      dataViewToHex a = Normal ha
      /\ dataViewToHex b = Normal hb
      /\ dataViewToHex (a ++ b) = Normal (ha ++ str ":" ++ hb).
Proof.
  intros a b Ha Hb. eexists. eexists.
  split; [apply dataViewToHex_pairs|]. split; [apply dataViewToHex_pairs|].
  rewrite dataViewToHex_pairs, map_app. f_equal.
  apply join_app; intros E; apply map_eq_nil in E; contradiction.
Qed.

(** X4 on the views 0A and FF 00. *)
Lemma dataViewToHex_app_witness :
  exists ha hb,
    dataViewToHex [x0a] = Normal ha
    /\ dataViewToHex [xff; x00] = Normal hb
    /\ dataViewToHex ([x0a] ++ [xff; x00]) = Normal (ha ++ str ":" ++ hb).
Proof.
  apply (dataViewToHex_app [x0a] [xff; x00]); discriminate.
Defined.

(** X5.  Two views with the same dump are the same view. *)
Theorem dataViewToHex_injective :
  forall a b : DataView, dataViewToHex a = dataViewToHex b -> a = b.
Proof.
  intros a b H. rewrite !dataViewToHex_pairs in H. injection H as H.
  pose proof (parse_hex_dump a) as Pa. rewrite H, parse_hex_dump in Pa.
  now injection Pa.
Qed.

(** X5 on two views that are equal. *)
Lemma dataViewToHex_injective_witness : [x0a; xff] = [x0a; xff].
Proof.
  apply (dataViewToHex_injective [x0a; xff] [x0a; xff]). reflexivity.
Defined.

(** ** decodeRecord, further *)

(** X6.  The payload of the decoded record is undefined exactly when
    the record has no data. *)
Theorem decodeRecord_payload_defined :
  forall r : TagRecord.t,
  exists d,
    decodeRecord r = Normal d
    /\ (DecodedRecord.payload d = None <-> TagRecord.data r = None).
Proof.
  intros r. destruct (TagRecord.data r) as [view|] eqn:Hd.
  - destruct (text_based r) eqn:Ht.
    + destruct (decodeRecord_text r view Hd Ht) as (s & _ & ->).
      eexists. split; [reflexivity|]. cbn. split; discriminate.
    + rewrite (decodeRecord_hex r view Hd Ht).
      eexists. split; [reflexivity|]. cbn. split; discriminate.
  - rewrite (decodeRecord_no_data r Hd). eexists. split; [reflexivity|].
    cbn. tauto.
Qed.

(** ** Writing and reading back *)

Section WriteRead.

Lemma list_pair_ind {A} (P : list A -> Prop) :
  P [] -> (forall a, P [a]) ->
  (forall a b l, P l -> P (b :: l) -> P (a :: b :: l)) ->
  forall l, P l.
Proof.
  intros H0 H1 H2 l.
  assert (H : P l /\ forall a, P (a :: l)).
  { induction l as [|b l [IH1 IH2]]; [split; [exact H0|exact H1]|].
    split; [apply IH2|]. intros a. apply H2; [exact IH1|apply IH2]. }
  apply H.
Qed.

Lemma surrogate_pair (c d : N) :
  in_range 0xD800 0xDBFF c = true -> in_range 0xDC00 0xDFFF d = true ->
  is_scalar (0x10000 + N.shiftl (c - 0xD800) 10 + (d - 0xDC00)) = true
  /\ utf16_encode_cp (0x10000 + N.shiftl (c - 0xD800) 10 + (d - 0xDC00)) = [c; d]
  /\ 0x10000 + N.shiftl (c - 0xD800) 10 + (d - 0xDC00) <> 0xFEFF.
Proof.
  unfold in_range, is_scalar, utf16_encode_cp. intros Hc Hd.
  rewrite N.shiftl_mul_pow2, N.shiftr_div_pow2.
  change 0x3FF with (N.ones 10). rewrite N.land_ones.
  change (2 ^ 10) with 1024.
  set (cp := 65536 + (c - 55296) * 1024 + (d - 56320)).
  assert (Hcp : 65536 <= cp <= 1114111) by (unfold cp, in_range; lia).
  split; [unfold in_range; lia|]. split; [|lia].
  destruct (N.ltb_spec cp 65536) as [L|_]; [lia|].
  f_equal; [|f_equal]; unfold cp; lia.
Qed.

(** The conversion to scalar values gives scalar values. *)
Lemma USVString_scalar (s : jsstring) :
  Forall (fun c => is_code_unit c = true) s ->
  Forall (fun c => is_scalar c = true) (USVString s).
Proof.
  assert (Hrep : is_scalar 0xFFFD = true) by reflexivity.
  induction s as [| a | a b l IH1 IH2] using list_pair_ind; intros H.
  - constructor.
  - cbn [USVString]. inversion_clear H as [|? ? Ha _].
    destruct (in_range 55296 56319 a) eqn:E1; [now constructor|].
    destruct (in_range 56320 57343 a) eqn:E2; [now constructor|].
    constructor; [|constructor].
    unfold is_scalar, is_code_unit, in_range in *. lia.
  - inversion_clear H as [|? ? Ha Hbl]. specialize (IH2 Hbl).
    inversion_clear Hbl as [|? ? Hb Hl]. specialize (IH1 Hl).
    change (USVString (a :: b :: l))
      with (if in_range 0xD800 0xDBFF a then
              if in_range 0xDC00 0xDFFF b
              then (0x10000 + N.shiftl (a - 0xD800) 10 + (b - 0xDC00)) :: USVString l
              else 0xFFFD :: USVString (b :: l)
            else if in_range 0xDC00 0xDFFF a then 0xFFFD :: USVString (b :: l)
            else a :: USVString (b :: l)).
    destruct (in_range 55296 56319 a) eqn:E1.
    + destruct (in_range 56320 57343 b) eqn:E2; [|now constructor].
      constructor; [|exact IH1]. now apply surrogate_pair.
    + destruct (in_range 56320 57343 a) eqn:E2; [now constructor|].
      constructor; [|exact IH2].
      unfold is_scalar, is_code_unit, in_range in *. lia.
Qed.

(** A well-formed string is the UTF-16 form of its scalar values. *)
Lemma utf16_encode_USVString (s : jsstring) :
  Forall (fun c => is_code_unit c = true) s ->
  well_formed s = true ->
  utf16_encode (USVString s) = s.
Proof.
  unfold utf16_encode.
  induction s as [| a | a b l IH1 IH2] using list_pair_ind; intros H W.
  - reflexivity.
  - cbn [USVString well_formed] in *. inversion_clear H as [|? ? Ha _].
    destruct (in_range 55296 56319 a) eqn:E1; [discriminate|].
    destruct (in_range 56320 57343 a) eqn:E2; [discriminate|].
    cbn [flat_map]. unfold utf16_encode_cp, is_code_unit in *. now rewrite Ha.
  - inversion_clear H as [|? ? Ha Hbl].
    pose proof Hbl as Hbl'. inversion_clear Hbl' as [|? ? Hb Hl].
    change (well_formed (a :: b :: l))
      with (if in_range 0xD800 0xDBFF a
            then in_range 0xDC00 0xDFFF b && well_formed l
            else negb (in_range 0xDC00 0xDFFF a) && well_formed (b :: l)) in W.
    change (USVString (a :: b :: l))
      with (if in_range 0xD800 0xDBFF a then
              if in_range 0xDC00 0xDFFF b
              then (0x10000 + N.shiftl (a - 0xD800) 10 + (b - 0xDC00)) :: USVString l
              else 0xFFFD :: USVString (b :: l)
            else if in_range 0xDC00 0xDFFF a then 0xFFFD :: USVString (b :: l)
            else a :: USVString (b :: l)).
    destruct (in_range 55296 56319 a) eqn:E1.
    + apply andb_prop in W. destruct W as [E2 W]. rewrite E2.
      cbn [flat_map]. destruct (surrogate_pair a b E1 E2) as (_ & -> & _).
      rewrite (IH1 Hl W). reflexivity.
    + apply andb_prop in W. destruct W as [E2 W].
      apply negb_true_iff in E2. rewrite E2. cbn [flat_map].
      rewrite (IH2 Hbl W). unfold utf16_encode_cp, is_code_unit in *.
      now rewrite Ha.
Qed.

(** A string that does not begin with U+FEFF has scalar values that do
    not either. *)
Lemma USVString_no_bom (s : jsstring) :
  startsWith s [0xFEFF] = false -> strip_bom (USVString s) = USVString s.
Proof.
  destruct s as [|a [|b s]]; [reflexivity| |]; cbn [startsWith];
    rewrite andb_true_r; intros H.
  - cbn [USVString].
    destruct (in_range 55296 56319 a) eqn:E1; [reflexivity|].
    destruct (in_range 56320 57343 a) eqn:E2; [reflexivity|].
    cbn [strip_bom]. now rewrite H.
  - change (USVString (a :: b :: s))
      with (if in_range 0xD800 0xDBFF a then
              if in_range 0xDC00 0xDFFF b
              then (0x10000 + N.shiftl (a - 0xD800) 10 + (b - 0xDC00)) :: USVString s
              else 0xFFFD :: USVString (b :: s)
            else if in_range 0xDC00 0xDFFF a then 0xFFFD :: USVString (b :: s)
            else a :: USVString (b :: s)).
    destruct (in_range 55296 56319 a) eqn:E1.
    + destruct (in_range 56320 57343 b) eqn:E2; [|reflexivity].
      cbn [strip_bom]. destruct (surrogate_pair a b E1 E2) as (_ & _ & Hne).
      apply N.eqb_neq in Hne. now rewrite Hne.
    + destruct (in_range 56320 57343 a) eqn:E2; [reflexivity|].
      cbn [strip_bom]. now rewrite H.
Qed.

(** Decoding what the encoder made of a string: the string, with U+FFFD
    for each lone surrogate and without a byte order mark at the
    head. *)
Lemma decode_encode_string (s : jsstring) :
  Forall (fun c => is_code_unit c = true) s ->
  TextDecoder_decode new_TextDecoder (TextEncoder_encode s)
  = Normal (utf16_encode (strip_bom (USVString s))).
Proof.
  intros H. unfold TextEncoder_encode.
  apply TextDecoder_decode_encode, USVString_scalar, H.
Qed.

End WriteRead.

(** X7.  A text payload survives writing and reading back: when
    [writeNfc] writes a well-formed string that does not begin with
    U+FEFF as a ["mime"] record of a media type that begins with
    ["text/"], [decodeRecord] of a record read with that type, media type
    and data has the string as its payload. *)
Theorem writeNfc_decodeRecord_roundtrip :
  forall (payload mediaType : jsstring) (id : option jsstring) (p : Platform),
    hasNDEFReader p = true ->
    Forall (fun c => is_code_unit c = true) payload ->
    well_formed payload = true ->
    startsWith payload [0xFEFF] = false ->
    startsWith mediaType (str "text/") = true ->
    exists bytes d,
      written (fst (writeNfc (str "mime") payload (Some mediaType) p))
      = mkMessage [] [RecordInit.mk (str "mime") (Some mediaType) (Bytes bytes)]
          :: written p
      /\ decodeRecord (TagRecord.mk (str "mime") (Some mediaType) id (Some bytes))
         = Normal d
      /\ DecodedRecord.payload d = Some payload.
Proof.
  intros payload mediaType id p Hp Hu Hw Hb Hm.
  exists (TextEncoder_encode payload).
  rewrite (writeNfc_mime p payload (Some mediaType) Hp). cbn [fst written set_written].
  destruct (decodeRecord_text
              (TagRecord.mk (str "mime") (Some mediaType) id
                 (Some (TextEncoder_encode payload)))
              (TextEncoder_encode payload) eq_refl) as (s & Hs & Hr).
  { apply text_based_true. right. right. exists mediaType. auto. }
  rewrite decode_encode_string in Hs by exact Hu. injection Hs as <-.
  eexists. split; [reflexivity|]. split; [exact Hr|].
  cbn [DecodedRecord.payload].
  rewrite USVString_no_bom, utf16_encode_USVString by assumption. reflexivity.
Qed.

(** X7 on the payload ["h", U+00E9, U+1F44B] and the media type
    ["text/plain"]. *)
Lemma writeNfc_decodeRecord_roundtrip_witness :
  exists bytes d,
    written (fst (writeNfc (str "mime") [0x68; 0xE9; 0xD83D; 0xDC4B]
                    (Some (str "text/plain")) ready))
    = mkMessage [] [RecordInit.mk (str "mime") (Some (str "text/plain"))
                      (Bytes bytes)]
        :: written ready
    /\ decodeRecord (TagRecord.mk (str "mime") (Some (str "text/plain")) None
                       (Some bytes))
       = Normal d
    /\ DecodedRecord.payload d = Some [0x68; 0xE9; 0xD83D; 0xDC4B].
Proof.
  apply (writeNfc_decodeRecord_roundtrip [0x68; 0xE9; 0xD83D; 0xDC4B]
           (str "text/plain") None ready).
  - reflexivity.
  - repeat constructor.
  - reflexivity.
  - reflexivity.
  - reflexivity.
Defined.

(** ** writeNfc, further *)

(** The one record of the message of [writeNfc], and how the call
    settles. *)
Lemma writeNfc_record :
  forall (recordType payload : jsstring) (mimeType : option jsstring)
         (p : Platform),
    hasNDEFReader p = true ->
    exists r,
      writeNfc recordType payload mimeType p
      = (set_written (mkMessage [] [r] :: written p) p,
         match write_verdict p (mkMessage [] [r]) with
         | None => Normal (mkMessage [] [r])
         | Some e => Throw e
         end)
      /\ RecordInit.recordType r = recordType
      /\ RecordInit.mediaType r
         = (if js_eqb recordType (str "mime") then mimeType else None)
      /\ RecordInit.data r
         = (if js_eqb recordType (str "mime") || js_eqb recordType (str "unknown")
            then Bytes (TextEncoder_encode payload)
            else Text payload).
Proof.
  intros recordType payload mimeType p Hp.
  unfold writeNfc, new_NDEFReader, NDEFReader_write. rewrite Hp.
  destruct (js_eqb recordType (str "mime")) eqn:E1.
  - apply js_eqb_eq in E1.
    exists (RecordInit.mk (str "mime") mimeType (Bytes (TextEncoder_encode payload))).
    split; [destruct (write_verdict p _); reflexivity|].
    repeat split. symmetry. exact E1.
  - cbn [orb]. destruct (js_eqb recordType (str "unknown")) eqn:E2.
    + exists (RecordInit.mk recordType None (Bytes (TextEncoder_encode payload))).
      split; [destruct (write_verdict p _); reflexivity|]. repeat split.
    + exists (RecordInit.mk recordType None (Text payload)).
      split; [destruct (write_verdict p _); reflexivity|]. repeat split.
Qed.

(** X8.  On a platform with the tag writer, [writeNfc] hands the writer
    exactly one message, of exactly one record of the record type
    given, and settles as the write does.  The record has a media type
    only for record type ["mime"]; its data are the UTF-8 bytes of the
    payload for ["mime"] and ["unknown"], and the payload string itself
    for every other record type. *)
Theorem writeNfc_one_record :
  forall (recordType payload : jsstring) (mimeType : option jsstring)
         (p : Platform),
    hasNDEFReader p = true ->
    exists r,
      writeNfc recordType payload mimeType p
      = (set_written (mkMessage [] [r] :: written p) p,
         match write_verdict p (mkMessage [] [r]) with
         | None => Normal (mkMessage [] [r])
         | Some e => Throw e
         end)
      /\ RecordInit.recordType r = recordType
      /\ RecordInit.mediaType r
         = (if js_eqb recordType (str "mime") then mimeType else None)
      /\ RecordInit.data r
         = (if js_eqb recordType (str "mime") || js_eqb recordType (str "unknown")
            then Bytes (TextEncoder_encode payload)
            else Text payload).
Proof. exact writeNfc_record. Qed.

(** X8 on a ["url"] record written on the granting platform. *)
Lemma writeNfc_one_record_witness :
  exists r,
    writeNfc (str "url") (str "https://a.b") None ready
    = (set_written (mkMessage [] [r] :: written ready) ready,
       match write_verdict ready (mkMessage [] [r]) with
       | None => Normal (mkMessage [] [r])
       | Some e => Throw e
       end)
    /\ RecordInit.recordType r = str "url"
    /\ RecordInit.mediaType r
       = (if js_eqb (str "url") (str "mime") then None else None)
    /\ RecordInit.data r
       = (if js_eqb (str "url") (str "mime") || js_eqb (str "url") (str "unknown")
          then Bytes (TextEncoder_encode (str "https://a.b"))
          else Text (str "https://a.b")).
Proof.
  apply (writeNfc_one_record (str "url") (str "https://a.b") None ready).
  reflexivity.
Defined.

(** X9.  Without [NDEFReader] on the platform, [writeNfc],
    [writeMultiDemo] and [startScan] are each rejected by the error of
    [new NDEFReader()], and leave the platform as it was: nothing is
    written, no scan begins. *)
Theorem no_NDEFReader_rejects :
  forall (App : Type) (onReading : Callback App) (signal : AbortController)
         (recordType payload : jsstring) (mimeType : option jsstring)
         (p : Platform),
    hasNDEFReader p = false ->
    exists e,
      new_NDEFReader p = Throw e
      /\ writeNfc recordType payload mimeType p = (p, Throw e)
      /\ writeMultiDemo p = (p, Throw e)
      /\ startScan signal onReading p = (p, Throw e).
Proof.
  intros App onReading signal recordType payload mimeType p Hp.
  unfold writeNfc, writeMultiDemo, startScan, new_NDEFReader. rewrite Hp.
  eexists. repeat split.
Qed.

(** X9 on the platform that lacks the reader. *)
Lemma no_NDEFReader_rejects_witness :
  exists e,
    new_NDEFReader (mkPlatform false (fun _ => None) None [] [] [] []) = Throw e
    /\ writeNfc (str "text") (str "hi") None
         (mkPlatform false (fun _ => None) None [] [] [] [])
       = (mkPlatform false (fun _ => None) None [] [] [] [], Throw e)
    /\ writeMultiDemo (mkPlatform false (fun _ => None) None [] [] [] [])
       = (mkPlatform false (fun _ => None) None [] [] [] [], Throw e)
    /\ startScan 0%nat recorder (mkPlatform false (fun _ => None) None [] [] [] [])
       = (mkPlatform false (fun _ => None) None [] [] [] [], Throw e).
Proof.
  apply (no_NDEFReader_rejects (list Invocation) recorder 0%nat
           (str "text") (str "hi") None
           (mkPlatform false (fun _ => None) None [] [] [] [])).
  reflexivity.
Defined.

(** ** startScan, further *)

(** X10.  On a platform with the tag reader, [startScan] is fulfilled
    exactly when the signal is not aborted and the reader grants the
    scan; then the signal is the latest of the scanning signals and
    both handlers of the reader are set.  Otherwise it is rejected, by
    an abort error for an aborted signal and by the reader's error for a
    scan refused, no scan has begun and no handler is left. *)
Theorem startScan_outcome :
  forall (App : Type) (onReading : Callback App) (signal : AbortController)
         (p : Platform),
    hasNDEFReader p = true ->
    match startScan signal onReading p with
    | (p', Normal ndef) =>
        is_aborted signal p = false /\ scan_verdict p = None
        /\ p' = set_abort (aborted p) (signal :: scanning p) p
        /\ onreading ndef = Some (onreading_handler onReading)
        /\ onreadingerror ndef <> None
    | (p', Throw e) =>
        p' = p
        /\ ((is_aborted signal p = true /\ exn_name e = "AbortError"%string)
            \/ (is_aborted signal p = false /\ scan_verdict p = Some e))
    end.
Proof.
  intros App onReading signal p Hp.
  unfold startScan, new_NDEFReader, NDEFReader_scan. rewrite Hp.
  destruct (is_aborted signal p) eqn:Ha.
  - split; [reflexivity|]. left. split; reflexivity.
  - destruct (scan_verdict p) as [e|] eqn:Hv.
    + split; [reflexivity|]. right. split; reflexivity.
    + repeat split. discriminate.
Qed.

(** X10 on the granting platform. *)
Lemma startScan_outcome_witness :
  match startScan 0%nat recorder ready with
  | (p', Normal ndef) =>
      is_aborted 0%nat ready = false /\ scan_verdict ready = None
      /\ p' = set_abort (aborted ready) (0%nat :: scanning ready) ready
      /\ onreading ndef = Some (onreading_handler recorder)
      /\ onreadingerror ndef <> None
  | (p', Throw e) =>
      p' = ready
      /\ ((is_aborted 0%nat ready = true /\ exn_name e = "AbortError"%string)
          \/ (is_aborted 0%nat ready = false /\ scan_verdict ready = Some e))
  end.
Proof.
  apply (startScan_outcome (list Invocation) recorder 0%nat ready). reflexivity.
Defined.

Section ReadingErrors.

Variable App : Type.
Variable onReading : Callback App.

Lemma dispatch_all_split (ndef : NDEFReader App) (evs : list ScanEvent)
    (a : App) (p : Platform) :
  dispatch_all ndef evs (a, p)
  = (deliver ndef (readings evs) a,
     Nat.iter (reading_errors evs) (fire_readingerror ndef) p).
Proof.
  unfold dispatch_all, deliver. revert a p.
  induction evs as [|[event|] evs IH]; intros a p; [reflexivity| |].
  - cbn [fold_left dispatch fst snd readings reading_errors]. apply IH.
  - cbn [fold_left dispatch fst snd readings reading_errors]. rewrite IH.
    f_equal. rewrite Nat.iter_succ_r. reflexivity.
Qed.

Lemma console_log_iter (line : jsstring) (n : nat) (p : Platform) :
  Nat.iter n (console_log line) p
  = mkPlatform (hasNDEFReader p) (write_verdict p) (scan_verdict p) (written p)
               (aborted p) (scanning p) (repeat line n ++ console p).
Proof.
  induction n as [|n IH]; [now destruct p|].
  cbn [Nat.iter nat_rect repeat app]. unfold Nat.iter in IH. rewrite IH. reflexivity.
Qed.

End ReadingErrors.

(** X11.  A reading error does not end the session and calls no
    callback: once [startScan] is fulfilled, for every sequence of
    reading and reading-error events the callback has run, in order, for
    the reading events alone, and the platform has only changed by one
    console line for each error. *)
Theorem reading_errors_skipped :
  forall (App : Type) (onReading : Callback App) (signal : AbortController)
         (p p' : Platform) (ndef : NDEFReader App) (evs : list ScanEvent)
         (a : App) (q : Platform),
    startScan signal onReading p = (p', Normal ndef) ->
    exists line,
      dispatch_all ndef evs (a, q)
      = (deliver ndef (readings evs) a,
         mkPlatform (hasNDEFReader q) (write_verdict q) (scan_verdict q)
                    (written q) (aborted q) (scanning q)
                    (repeat line (reading_errors evs) ++ console q)).
Proof.
  intros App onReading signal p p' ndef evs a q Hs.
  exists (str "Cannot read data from the NFC tag. Try another one?").
  rewrite dispatch_all_split. f_equal.
  assert (H : fire_readingerror ndef
              = console_log (str "Cannot read data from the NFC tag. Try another one?")).
  { revert Hs. unfold startScan. destruct (new_NDEFReader p); [|discriminate].
    destruct (NDEFReader_scan signal p) as [p1 [[]|e]]; [|discriminate].
    intros H. injection H as _ <-. reflexivity. }
  rewrite H. apply console_log_iter.
Qed.

(** X11 on a reading, an error and a reading again. *)
Lemma reading_errors_skipped_witness :
  exists line,
    dispatch_all
      (mkReader
         (Some (console_log
                  (str "Cannot read data from the NFC tag. Try another one?")))
         (Some (onreading_handler recorder)))
      [Reading event_one; ReadingError; Reading event_three] ([], ready)
    = (deliver
         (mkReader
            (Some (console_log
                     (str "Cannot read data from the NFC tag. Try another one?")))
            (Some (onreading_handler recorder)))
         (readings [Reading event_one; ReadingError; Reading event_three]) [],
       mkPlatform (hasNDEFReader ready) (write_verdict ready) (scan_verdict ready)
                  (written ready) (aborted ready) (scanning ready)
                  (repeat line
                     (reading_errors
                        [Reading event_one; ReadingError; Reading event_three])
                     ++ console ready)).
Proof.
  apply (reading_errors_skipped (list Invocation) recorder 0%nat ready
           (set_abort [] [0%nat] ready)).
  reflexivity.
Defined.

(** ** handleWrite and handleMultiWrite *)

Section WriteHandlers.

(** What a call of [writeNfc] does to the list of written messages. *)
Lemma writeNfc_written (recordType payload : jsstring)
    (mimeType : option jsstring) (p : Platform) :
  match writeNfc recordType payload mimeType p with
  | (p', Normal m) => written p' = m :: written p /\ console p' = console p
  | (p', Throw _) =>
      (forall m, In m (written p) -> In m (written p')) /\ console p' = console p
  end.
Proof.
  unfold writeNfc, new_NDEFReader, NDEFReader_write.
  destruct (hasNDEFReader p); [|split; auto].
  destruct (write_verdict p _); cbn [written set_written console].
  - split; [intros m H; now right|reflexivity].
  - split; reflexivity.
Qed.

Lemma writeMultiDemo_written (p : Platform) :
  match writeMultiDemo p with
  | (p', Normal m) =>
      m = demo_message /\ written p' = m :: written p /\ console p' = console p
  | (p', Throw _) =>
      (forall m, In m (written p) -> In m (written p')) /\ console p' = console p
  end.
Proof.
  rewrite writeMultiDemo_settles.
  destruct (hasNDEFReader p); [|split; auto].
  destruct (write_verdict p demo_message); cbn [written set_written console].
  - split; [intros m H; now right|reflexivity].
  - repeat split.
Qed.

Lemma trimStart_spec (s : jsstring) :
  exists pre,
    s = pre ++ trimStart s
    /\ Forall (fun c => is_space c = true) pre
    /\ forall c, hd_error (trimStart s) = Some c -> is_space c = false.
Proof.
  induction s as [|c s (pre & Hs & Hpre & Hhd)].
  - exists []. repeat split; [constructor|discriminate].
  - cbn [trimStart]. destruct (is_space c) eqn:Hc.
    + exists (c :: pre). cbn [app]. rewrite <- Hs.
      repeat split; [now constructor|exact Hhd].
    + exists []. repeat split; [constructor|].
      cbn [hd_error]. intros c' H. now injection H as <-.
Qed.

(** [trim] takes white space away at both ends, and nothing else. *)
Lemma trim_spec (s : jsstring) :
  exists pre post,
    s = pre ++ trim s ++ post
    /\ Forall (fun c => is_space c = true) pre
    /\ Forall (fun c => is_space c = true) post
    /\ (forall c, hd_error (trim s) = Some c -> is_space c = false)
    /\ (forall c, hd_error (rev (trim s)) = Some c -> is_space c = false).
Proof.
  unfold trim.
  destruct (trimStart_spec s) as (pre & Hs & Hpre & Hhd).
  destruct (trimStart_spec (rev (trimStart s))) as (post & Hr & Hpost & Hlast).
  set (u := trimStart (rev (trimStart s))) in *.
  assert (Ht : trimStart s = rev u ++ rev post).
  { rewrite <- rev_app_distr, <- Hr. symmetry. apply rev_involutive. }
  exists pre, (rev post). repeat split.
  - rewrite <- Ht. exact Hs.
  - exact Hpre.
  - apply Forall_rev, Hpost.
  - intros c Hc. apply Hhd. rewrite Ht.
    destruct (rev u); [discriminate|exact Hc].
  - rewrite rev_involutive. exact Hlast.
Qed.

End WriteHandlers.

(** X12.  The log never shows a message that the tag writer was not
    given: if every card of the log holds a written message, so it is
    after [handleWrite] and after [handleMultiWrite]. *)
Theorem log_shows_written :
  forall (ui : UI) (p : Platform),
    logged_written ui p ->
    logged_written (fst (handleWrite ui p)) (snd (handleWrite ui p))
    /\ logged_written (fst (handleMultiWrite ui p)) (snd (handleMultiWrite ui p)).
Proof.
  intros ui p H. split.
  - unfold handleWrite.
    destruct (js_eqb (recordType_value ui) (str "mime")
              && negb (truthy (Some (trim (mimeType_value ui))))); [exact H|].
    pose proof (writeNfc_written (recordType_value ui) (payload_value ui)
                  (Some (trim (mimeType_value ui))) p) as W.
    destruct (writeNfc _ _ _ p) as [p' [m|e]]; cbn [fst snd].
    + destruct W as [W _]. intros card [<-|Hc]; cbn [snd]; rewrite W.
      * now left.
      * right. apply (H card Hc).
    + destruct W as [W _]. intros card Hc. cbn [written console_log].
      apply W, (H card Hc).
  - unfold handleMultiWrite.
    pose proof (writeMultiDemo_written p) as W.
    destruct (writeMultiDemo p) as [p' [m|e]]; cbn [fst snd].
    + destruct W as (_ & W & _). intros card [<-|Hc]; cbn [snd]; rewrite W.
      * now left.
      * right. apply (H card Hc).
    + destruct W as [W _]. intros card Hc. cbn [written console_log].
      apply W, (H card Hc).
Qed.

(** X12 on the form of C1 and the granting platform: an empty log. *)
Lemma log_shows_written_witness :
  logged_written (fst (handleWrite blank_mime_form ready))
                 (snd (handleWrite blank_mime_form ready))
  /\ logged_written (fst (handleMultiWrite blank_mime_form ready))
                    (snd (handleMultiWrite blank_mime_form ready)).
Proof.
  apply (log_shows_written blank_mime_form ready).
  intros card H. destruct H.
Defined.

(** X13.  When the form passes the check of [handleWrite] (the record
    type is not ["mime"], or the MIME type is not blank) on a platform
    with the tag writer, exactly one message, of one record of the type
    chosen, is handed to the writer; the record has the trimmed MIME
    type as its media type for ["mime"] and none for any other type,
    whatever the MIME field holds.  If the write is fulfilled the
    status says so in the colour of success and the log gets a card with
    that message on top; if it is rejected the status is the error's
    message, or ["Write failed"] for an empty one, in the colour of
    errors, the error goes to the console and the log is as before. *)
Theorem handleWrite_outcome :
  forall (ui : UI) (p : Platform),
    hasNDEFReader p = true ->
    recordType_value ui <> str "mime" \/ trim (mimeType_value ui) <> str "" ->
    exists r,
      RecordInit.recordType r = recordType_value ui
      /\ RecordInit.mediaType r
         = (if js_eqb (recordType_value ui) (str "mime")
            then Some (trim (mimeType_value ui)) else None)
      /\ written (snd (handleWrite ui p)) = mkMessage [] [r] :: written p
      /\ match write_verdict p (mkMessage [] [r]) with
         | None =>
             status_textContent (fst (handleWrite ui p))
             = str "Write succeeded " ++ [0x2714; 0xFE0F]
             /\ status_color (fst (handleWrite ui p)) = str "var(--ok)"
             /\ log (fst (handleWrite ui p))
                = (str "Wrote Message", mkMessage [] [r]) :: log ui
             /\ console (snd (handleWrite ui p)) = console p
         | Some e =>
             status_textContent (fst (handleWrite ui p))
             = or_else (Some (exn_message e)) (str "Write failed")
             /\ status_color (fst (handleWrite ui p)) = str "var(--err)"
             /\ log (fst (handleWrite ui p)) = log ui
             /\ console (snd (handleWrite ui p)) = exn_message e :: console p
         end.
Proof.
  intros ui p Hp Hguard. unfold handleWrite.
  assert (G : js_eqb (recordType_value ui) (str "mime")
              && negb (truthy (Some (trim (mimeType_value ui)))) = false).
  { destruct Hguard as [H|H].
    - apply js_eqb_neq in H. now rewrite H.
    - destruct (trim (mimeType_value ui)); [now elim H|]. apply andb_false_r. }
  rewrite G.
  destruct (writeNfc_record (recordType_value ui) (payload_value ui)
              (Some (trim (mimeType_value ui))) p Hp) as (r & -> & Hr & Hmt & _).
  exists r. split; [exact Hr|]. split; [exact Hmt|].
  destruct (write_verdict p (mkMessage [] [r])) as [e|]; cbn; repeat split.
  now destruct (exn_message e).
Qed.

(** X13 on a ["text"] form, on a platform whose writer fulfils the
    write. *)
Lemma handleWrite_outcome_witness :
  exists r,
    RecordInit.recordType r = recordType_value text_form
    /\ RecordInit.mediaType r
       = (if js_eqb (recordType_value text_form) (str "mime")
          then Some (trim (mimeType_value text_form)) else None)
    /\ written (snd (handleWrite text_form ready)) = mkMessage [] [r] :: written ready
    /\ match write_verdict ready (mkMessage [] [r]) with
       | None =>
           status_textContent (fst (handleWrite text_form ready))
           = str "Write succeeded " ++ [0x2714; 0xFE0F]
           /\ status_color (fst (handleWrite text_form ready)) = str "var(--ok)"
           /\ log (fst (handleWrite text_form ready))
              = (str "Wrote Message", mkMessage [] [r]) :: log text_form
           /\ console (snd (handleWrite text_form ready)) = console ready
       | Some e =>
           status_textContent (fst (handleWrite text_form ready))
           = or_else (Some (exn_message e)) (str "Write failed")
           /\ status_color (fst (handleWrite text_form ready)) = str "var(--err)"
           /\ log (fst (handleWrite text_form ready)) = log text_form
           /\ console (snd (handleWrite text_form ready))
              = exn_message e :: console ready
       end.
Proof.
  apply (handleWrite_outcome text_form ready).
  - reflexivity.
  - left. discriminate.
Defined.

(** X14.  The media type that [handleWrite] hands to the writer for a
    ["mime"] record is the MIME type of the form without the white
    space at its two ends: it is not empty, neither begins nor ends
    with white space, and the typed MIME type is this media type
    between two runs of white space. *)
Theorem handleWrite_trims_media_type :
  forall (ui : UI) (p : Platform),
    hasNDEFReader p = true ->
    recordType_value ui = str "mime" ->
    trim (mimeType_value ui) <> str "" ->
    exists mediaType pre post,
      written (snd (handleWrite ui p))
      = mkMessage [] [RecordInit.mk (str "mime") (Some mediaType)
                        (Bytes (TextEncoder_encode (payload_value ui)))]
          :: written p
      /\ mimeType_value ui = pre ++ mediaType ++ post
      /\ Forall (fun c => is_space c = true) pre
      /\ Forall (fun c => is_space c = true) post
      /\ mediaType <> []
      /\ (forall c, hd_error mediaType = Some c -> is_space c = false)
      /\ (forall c, hd_error (rev mediaType) = Some c -> is_space c = false).
Proof.
  intros ui p Hp Ht Hm.
  destruct (trim_spec (mimeType_value ui)) as (pre & post & Hs & Hpre & Hpost & Hh & Hl).
  exists (trim (mimeType_value ui)), pre, post.
  split; [|now repeat split].
  unfold handleWrite. cbv zeta. rewrite Ht.
  destruct (trim (mimeType_value ui)) as [|c m] eqn:E; [now elim Hm|].
  cbn [truthy negb].
  change (js_eqb (str "mime") (str "mime") && false) with false. cbv iota.
  pose proof (writeNfc_mime p (payload_value ui) (@Some jsstring (c :: m)) Hp) as W.
  cbv zeta in W. rewrite W.
  destruct (write_verdict p _); reflexivity.
Qed.

(** X14 on a form whose MIME type is typed with blanks around it. *)
Lemma handleWrite_trims_media_type_witness :
  exists mediaType pre post,
    written (snd (handleWrite mime_form ready))
    = mkMessage [] [RecordInit.mk (str "mime") (Some mediaType)
                      (Bytes (TextEncoder_encode (payload_value mime_form)))]
        :: written ready
    /\ mimeType_value mime_form = pre ++ mediaType ++ post
    /\ Forall (fun c => is_space c = true) pre
    /\ Forall (fun c => is_space c = true) post
    /\ mediaType <> []
    /\ (forall c, hd_error mediaType = Some c -> is_space c = false)
    /\ (forall c, hd_error (rev mediaType) = Some c -> is_space c = false).
Proof.
  apply (handleWrite_trims_media_type mime_form ready).
  - reflexivity.
  - reflexivity.
  - discriminate.
Defined.

(** X15.  On a platform with the tag writer, [handleMultiWrite] hands
    the writer the demonstration message, once.  If the write is
    fulfilled the status says so in the colour of success and the log
    gets a card with that message on top; if it is rejected the status
    is the error's message, or ["Write failed"] for an empty one, in the
    colour of errors, the error goes to the console and the log is as
    before. *)
Theorem handleMultiWrite_outcome :
  forall (ui : UI) (p : Platform),
    hasNDEFReader p = true ->
    written (snd (handleMultiWrite ui p)) = demo_message :: written p
    /\ match write_verdict p demo_message with
       | None =>
           status_textContent (fst (handleMultiWrite ui p))
           = str "Multi-record write " ++ [0x2714; 0xFE0F]
           /\ status_color (fst (handleMultiWrite ui p)) = str "var(--ok)"
           /\ log (fst (handleMultiWrite ui p))
              = (str "Wrote Multi-Record", demo_message) :: log ui
           /\ console (snd (handleMultiWrite ui p)) = console p
       | Some e =>
           status_textContent (fst (handleMultiWrite ui p))
           = or_else (Some (exn_message e)) (str "Write failed")
           /\ status_color (fst (handleMultiWrite ui p)) = str "var(--err)"
           /\ log (fst (handleMultiWrite ui p)) = log ui
           /\ console (snd (handleMultiWrite ui p)) = exn_message e :: console p
       end.
Proof.
  intros ui p Hp. unfold handleMultiWrite.
  rewrite writeMultiDemo_settles, Hp.
  destruct (write_verdict p demo_message) as [e|]; cbn; repeat split.
Qed.

(** X15 on the granting platform. *)
Lemma handleMultiWrite_outcome_witness :
  written (snd (handleMultiWrite text_form ready)) = demo_message :: written ready
  /\ match write_verdict ready demo_message with
     | None =>
         status_textContent (fst (handleMultiWrite text_form ready))
         = str "Multi-record write " ++ [0x2714; 0xFE0F]
         /\ status_color (fst (handleMultiWrite text_form ready)) = str "var(--ok)"
         /\ log (fst (handleMultiWrite text_form ready))
            = (str "Wrote Multi-Record", demo_message) :: log text_form
         /\ console (snd (handleMultiWrite text_form ready)) = console ready
     | Some e =>
         status_textContent (fst (handleMultiWrite text_form ready))
         = or_else (Some (exn_message e)) (str "Write failed")
         /\ status_color (fst (handleMultiWrite text_form ready)) = str "var(--err)"
         /\ log (fst (handleMultiWrite text_form ready)) = log text_form
         /\ console (snd (handleMultiWrite text_form ready))
            = exn_message e :: console ready
     end.
Proof.
  apply (handleMultiWrite_outcome text_form ready). reflexivity.
Defined.

(** ** The scan handlers *)

Section ScanHandlers.

Lemma le_fold_max (x : nat) (l : list nat) :
  In x l -> (x <= fold_right Nat.max O l)%nat.
Proof.
  induction l as [|y l IH]; [intros []|]. cbn [In fold_right].
  intros [->|H]; [lia|]. specialize (IH H). lia.
Qed.

(** The controller made by [new AbortController()] is new. *)
Lemma new_AbortController_fresh (p : Platform) (sh : Shell) :
  ~ In (new_AbortController p sh) (aborted p)
  /\ ~ In (new_AbortController p sh) (scanning p)
  /\ controller sh <> Some (new_AbortController p sh).
Proof.
  unfold new_AbortController.
  set (l := aborted p ++ scanning p
            ++ match controller sh with Some c => [c] | None => [] end).
  assert (H : forall x, In x l -> x <> S (fold_right Nat.max O l)).
  { intros x Hx E. apply le_fold_max in Hx. lia. }
  repeat split.
  - intros Hin. apply (H _ (in_or_app _ _ _ (or_introl Hin))). reflexivity.
  - intros Hin. eapply H; [|reflexivity].
    apply in_or_app. right. apply in_or_app. now left.
  - intros E. eapply H; [|reflexivity].
    apply in_or_app. right. apply in_or_app. right. rewrite E. now left.
Qed.

Lemma not_in_not_aborted (c : AbortController) (p : Platform) :
  ~ In c (aborted p) -> is_aborted c p = false.
Proof.
  unfold is_aborted. intros H.
  destruct (existsb (Nat.eqb c) (aborted p)) eqn:E; [|reflexivity].
  apply existsb_exists in E. destruct E as (x & Hx & Hc).
  apply Nat.eqb_eq in Hc. now subst x.
Qed.

Lemma filter_head (c : AbortController) (l : list AbortController) :
  ~ In c l -> filter (fun s => negb (Nat.eqb c s)) (c :: l) = l.
Proof.
  intros H. cbn [filter]. rewrite Nat.eqb_refl. cbn [negb].
  now apply filter_absent.
Qed.

(** [handleStartScan] on a platform with the reader. *)
Lemma handleStartScan_supported (sh : Shell) (p : Platform) :
  hasNDEFReader p = true ->
  let c := new_AbortController p sh in
  handleStartScan sh p
  = match scan_verdict p with
    | None =>
        (shell_setStatus
           (str "Scanning" ++ [0x2026] ++ str " bring a tag close "
              ++ [0xD83D; 0xDCA1])
           (str "info") (set_controller (Some c) (updateScanUI true sh)),
         set_abort (aborted p) (c :: scanning p) p,
         Some (mkReader
                 (Some (console_log
                          (str "Cannot read data from the NFC tag. Try another one?")))
                 (Some (onreading_handler onTagRead))))
    | Some e =>
        (updateScanUI false
           (shell_setStatus (or_else (Some (exn_message e)) (str "Scan failed"))
              (str "err") (set_controller (Some c) (updateScanUI true sh))),
         console_log (exn_message e) p, None)
    end.
Proof.
  intros Hp c. unfold handleStartScan, hasWebNFC. rewrite Hp. cbn [negb].
  change (new_AbortController p (updateScanUI true sh)) with c.
  unfold startScan, new_NDEFReader, NDEFReader_scan. rewrite Hp.
  destruct (new_AbortController_fresh p sh) as (Ha & _ & _). fold c in Ha.
  rewrite (not_in_not_aborted c p Ha).
  destruct (scan_verdict p); reflexivity.
Qed.

End ScanHandlers.

(** X16.  What [handleStartScan] leaves behind.  Without the reader on
    the platform only the status changes, to an error.  With it, a new
    controller is held in every case; if the scan is granted the scan is
    bound to that controller, as the latest one, the buttons and the
    animation show a scan and a reader is left; if the scan is refused no
    scan begins, the buttons and the animation show no scan, the status
    is the error's message or ["Scan failed"], and the error goes to the
    console. *)
Theorem handleStartScan_outcome :
  forall (sh : Shell) (p : Platform),
    let '(sh', p', ndef) := handleStartScan sh p in
    tag_cards sh' = tag_cards sh
    /\ if hasNDEFReader p then
         exists c,
           controller sh' = Some c
           /\ controller sh <> Some c
           /\ ~ In c (scanning p) /\ ~ In c (aborted p)
           /\ aborted p' = aborted p /\ written p' = written p
           /\ match scan_verdict p with
              | None =>
                  scanning p' = c :: scanning p
                  /\ btnStart_disabled sh' = true /\ btnStop_disabled sh' = false
                  /\ scanner_hidden sh' = false
                  /\ status_textContent (page sh')
                     = str "Scanning" ++ [0x2026] ++ str " bring a tag close "
                         ++ [0xD83D; 0xDCA1]
                  /\ status_color (page sh') = str "var(--text)"
                  /\ ndef <> None /\ console p' = console p
              | Some e =>
                  scanning p' = scanning p
                  /\ btnStart_disabled sh' = false /\ btnStop_disabled sh' = true
                  /\ scanner_hidden sh' = true
                  /\ status_textContent (page sh')
                     = or_else (Some (exn_message e)) (str "Scan failed")
                  /\ status_color (page sh') = str "var(--err)"
                  /\ ndef = None /\ console p' = exn_message e :: console p
              end
       else
         p' = p /\ ndef = None
         /\ sh' = shell_setStatus
                    (str "Web NFC not supported on this device/browser")
                    (str "err") sh.
Proof.
  intros sh p. destruct (hasNDEFReader p) eqn:Hp.
  - rewrite (handleStartScan_supported sh p Hp).
    destruct (new_AbortController_fresh p sh) as (Ha & Hs & Hc).
    destruct (scan_verdict p) as [e|]; (split; [reflexivity|]);
      exists (new_AbortController p sh); repeat split; try assumption.
    discriminate.
  - unfold handleStartScan, hasWebNFC. rewrite Hp. repeat split.
Qed.

(** X17.  [handleStopScan] always leaves the shell without a
    controller, with the buttons and the animation showing no scan and
    the status ["Scan stopped"]; the signal of the controller that was
    held is aborted, and the scan that was bound to it is ended; and a
    second call changes nothing. *)
Theorem handleStopScan_outcome :
  forall (sh : Shell) (p : Platform),
    let '(sh', p') := handleStopScan sh p in
    controller sh' = None
    /\ btnStart_disabled sh' = false /\ btnStop_disabled sh' = true
    /\ scanner_hidden sh' = true
    /\ status_textContent (page sh') = str "Scan stopped"
    /\ status_color (page sh') = str "var(--text)"
    /\ tag_cards sh' = tag_cards sh
    /\ written p' = written p
    /\ (forall c, controller sh = Some c ->
                  is_aborted c p' = true
                  /\ (is_aborted c p = false -> ~ In c (scanning p')))
    /\ handleStopScan sh' p' = (sh', p').
Proof.
  intros sh p. unfold handleStopScan.
  destruct (controller sh) as [c|] eqn:Hc.
  - repeat split.
    + unfold AbortController_abort. cbn [fst]. now destruct (is_aborted c p).
    + injection H as <-. apply aborted_after_abort.
    + injection H as <-. intros Ha. unfold AbortController_abort. cbn [fst].
      rewrite Ha. cbn [scanning set_abort]. intros Hin. apply filter_In in Hin.
      destruct Hin as [_ Hin]. now rewrite Nat.eqb_refl in Hin.
  - repeat split; cbn [controller shell_setStatus updateScanUI];
      try congruence.
    rewrite Hc. reflexivity.
Qed.

(** X18.  Starting a scan and stopping it leaves no scan behind: on a
    platform that grants the scan, after [handleStartScan] and then
    [handleStopScan] the scanning signals are those from before, the
    shell holds no controller, and the only signal aborted on the way is
    the one of the controller made for the scan. *)
Theorem start_then_stop :
  forall (sh : Shell) (p : Platform),
    hasNDEFReader p = true ->
    scan_verdict p = None ->
    let '(sh1, p1, _) := handleStartScan sh p in
    let '(sh2, p2) := handleStopScan sh1 p1 in
    scanning p2 = scanning p
    /\ controller sh2 = None
    /\ (exists c, controller sh1 = Some c /\ aborted p2 = c :: aborted p)
    /\ written p2 = written p
    /\ btnStart_disabled sh2 = false /\ btnStop_disabled sh2 = true.
Proof.
  intros sh p Hp Hv.
  pose proof (handleStartScan_supported sh p Hp) as H. cbv zeta in H.
  rewrite Hv in H. rewrite H. clear H.
  destruct (new_AbortController_fresh p sh) as (Ha & Hs & _).
  set (c := new_AbortController p sh) in *.
  unfold handleStopScan.
  cbn [controller shell_setStatus set_controller updateScanUI].
  unfold AbortController_abort. cbn [fst].
  assert (Hna : is_aborted c (set_abort (aborted p) (c :: scanning p) p) = false).
  { apply not_in_not_aborted. exact Ha. }
  rewrite Hna. cbn [scanning aborted written set_abort].
  rewrite (filter_head c (scanning p) Hs).
  repeat split. exists c. split; reflexivity.
Qed.

(** X18 on a shell that shows no scan, on the granting platform. *)
Lemma start_then_stop_witness :
  let '(sh1, p1, _) := handleStartScan idle_shell ready in
  let '(sh2, p2) := handleStopScan sh1 p1 in
  scanning p2 = scanning ready
  /\ controller sh2 = None
  /\ (exists c, controller sh1 = Some c /\ aborted p2 = c :: aborted ready)
  /\ written p2 = written ready
  /\ btnStart_disabled sh2 = false /\ btnStop_disabled sh2 = true.
Proof.
  apply (start_then_stop idle_shell ready); reflexivity.
Defined.

(** X19.  [handleStartScan] does not stop the scan of the controller
    that the shell already holds: after two calls that are both granted
    and one [handleStopScan], the scan of the first call is still bound
    to its signal, which is not aborted, and the shell holds no
    controller to stop it with. *)
Theorem second_start_orphans_first :
  forall (sh : Shell) (p : Platform),
    hasNDEFReader p = true ->
    scan_verdict p = None ->
    let '(sh1, p1, _) := handleStartScan sh p in
    let '(sh2, p2, _) := handleStartScan sh1 p1 in
    let '(sh3, p3) := handleStopScan sh2 p2 in
    exists c1 c2,
      controller sh1 = Some c1 /\ controller sh2 = Some c2 /\ c1 <> c2
      /\ controller sh3 = None
      /\ scanning p3 = c1 :: scanning p
      /\ is_aborted c1 p3 = false.
Proof.
  intros sh p Hp Hv.
  pose proof (handleStartScan_supported sh p Hp) as H. cbv zeta in H.
  rewrite Hv in H. rewrite H. clear H.
  destruct (new_AbortController_fresh p sh) as (Ha1 & Hs1 & _).
  set (c1 := new_AbortController p sh) in *.
  set (p1 := set_abort (aborted p) (c1 :: scanning p) p).
  set (sh1 := shell_setStatus _ _ (set_controller (Some c1) (updateScanUI true sh))).
  pose proof (handleStartScan_supported sh1 p1 Hp) as H. cbv zeta in H.
  change (scan_verdict p1) with (scan_verdict p) in H. rewrite Hv in H.
  rewrite H. clear H.
  destruct (new_AbortController_fresh p1 sh1) as (Ha2 & Hs2 & Hc2).
  set (c2 := new_AbortController p1 sh1) in *.
  assert (Hne : c1 <> c2).
  { intros E. apply Hc2. now rewrite <- E. }
  unfold handleStopScan.
  cbn [controller shell_setStatus set_controller updateScanUI].
  unfold AbortController_abort. cbn [fst].
  assert (Hna : is_aborted c2 (set_abort (aborted p1) (c2 :: scanning p1) p1) = false).
  { apply not_in_not_aborted. exact Ha2. }
  rewrite Hna.
  exists c1, c2. repeat split; try assumption.
  - cbn [scanning set_abort]. rewrite (filter_head c2 (scanning p1) Hs2). reflexivity.
  - apply not_in_not_aborted. cbn [aborted set_abort p1].
    intros [E|Hin]; [now apply Hne|now apply Ha1].
Qed.

(** X19 on a shell that shows no scan, on the granting platform. *)
Lemma second_start_orphans_first_witness :
  let '(sh1, p1, _) := handleStartScan idle_shell ready in
  let '(sh2, p2, _) := handleStartScan sh1 p1 in
  let '(sh3, p3) := handleStopScan sh2 p2 in
  exists c1 c2,
    controller sh1 = Some c1 /\ controller sh2 = Some c2 /\ c1 <> c2
    /\ controller sh3 = None
    /\ scanning p3 = c1 :: scanning ready
    /\ is_aborted c1 p3 = false.
Proof.
  apply (second_start_orphans_first idle_shell ready); reflexivity.
Defined.

Section TagReads.

(** What the reading callback logs for an invocation. *)
Lemma onTagRead_fold (trace : list Invocation) (sh : Shell) :
  let sh' := fold_left (call onTagRead) trace sh in
  tag_cards sh'
  = rev (map (fun inv =>
                (str "Tag Read",
                 mkTagRead (or_null (inv_serialNumber inv))
                           (records (inv_message inv)))) trace)
      ++ tag_cards sh
  /\ controller sh' = controller sh
  /\ btnStart_disabled sh' = btnStart_disabled sh
  /\ btnStop_disabled sh' = btnStop_disabled sh
  /\ log (page sh') = log (page sh)
  /\ forall inv, hd_error (rev trace) = Some inv ->
       serial_textContent sh' = or_else (inv_serialNumber inv) [0x2014]
       /\ tech_textContent sh' = or_else (inv_tech inv) (str "NDEF")
       /\ status_textContent (page sh') = str "Tag read " ++ [0x2714; 0xFE0F].
Proof.
  cbv zeta. revert sh.
  induction trace as [|inv trace IH] using rev_ind; intros sh.
  - cbn. repeat split; congruence.
  - rewrite fold_left_app. cbn [fold_left].
    destruct (IH sh) as (H1 & H2 & H3 & H4 & H5 & _).
    set (sh1 := fold_left (call onTagRead) trace sh) in *.
    rewrite map_app, rev_app_distr, rev_app_distr. cbn [map rev app].
    unfold call, onTagRead.
    cbn [tag_cards controller btnStart_disabled btnStop_disabled page
         serial_textContent tech_textContent shell_setStatus log setStatus
         status_textContent hd_error].
    rewrite H1. repeat split; try assumption.
    all: injection H as <-; reflexivity.
Qed.

Lemma Forall2_last {A B} (R : A -> B -> Prop) (l : list A) (l' : list B) :
  Forall2 R l l' ->
  forall a, hd_error (rev l) = Some a ->
  exists b, hd_error (rev l') = Some b /\ R a b.
Proof.
  intros H.
  assert (Hrev : Forall2 R (rev l) (rev l')).
  { induction H as [|x y l l' Hxy _ IH]; [constructor|].
    cbn [rev]. apply Forall2_app; [exact IH|]. repeat constructor. exact Hxy. }
  intros a Ha. destruct Hrev as [|x y ? ? Hxy _]; [discriminate|].
  injection Ha as ->. exists y. split; [reflexivity|exact Hxy].
Qed.

End TagReads.

(** X20.  After a [handleStartScan] that is granted, for every sequence
    of reading events fired at the reader the log has one card headed
    ["Tag Read"] per event on top of the cards from before, the latest
    event first, each with the decoded records of its event and its
    serial number, or [null] for none; the controller and the buttons
    are as [handleStartScan] left them; and after the last event the
    serial field shows its serial number, or a dash, and the technology
    field its technology, or ["NDEF"]. *)
Theorem tag_reads_logged :
  forall (sh : Shell) (p : Platform) (events : list NDEFReadingEvent),
    hasNDEFReader p = true ->
    scan_verdict p = None ->
    let '(sh1, _, ndef) := handleStartScan sh p in
    exists reader trace,
      ndef = Some reader
      /\ Forall2 reading_of events trace
      /\ tag_cards (deliver reader events sh1)
         = rev (map (fun inv =>
                       (str "Tag Read",
                        mkTagRead (or_null (inv_serialNumber inv))
                                  (records (inv_message inv)))) trace)
             ++ tag_cards sh
      /\ controller (deliver reader events sh1) = controller sh1
      /\ btnStart_disabled (deliver reader events sh1) = true
      /\ btnStop_disabled (deliver reader events sh1) = false
      /\ forall event, hd_error (rev events) = Some event ->
           serial_textContent (deliver reader events sh1)
           = or_else (serialNumber event) [0x2014]
           /\ tech_textContent (deliver reader events sh1)
              = or_else (match target event with
                         | Some t => tech t
                         | None => None
                         end) (str "NDEF").
Proof.
  intros sh p events Hp Hv.
  pose proof (handleStartScan_supported sh p Hp) as H. cbv zeta in H.
  rewrite Hv in H. rewrite H. clear H.
  set (reader := mkReader _ (Some (onreading_handler onTagRead))).
  set (sh1 := shell_setStatus _ _ _).
  destruct (deliver_calls Shell onTagRead reader events eq_refl)
    as (trace & Hall & Hrun).
  exists reader, trace. split; [reflexivity|]. split; [exact Hall|].
  rewrite Hrun.
  pose proof (onTagRead_fold trace sh1) as F. cbv zeta in F.
  destruct F as (F1 & F2 & F3 & F4 & _ & F6).
  repeat split; try assumption.
  - destruct (Forall2_last _ _ _ Hall event H) as (inv & Hinv & (_ & _ & Hs & _)).
    rewrite <- Hs. apply (F6 inv Hinv).
  - destruct (Forall2_last _ _ _ Hall event H) as (inv & Hinv & (_ & _ & _ & Ht)).
    rewrite <- Ht. apply (F6 inv Hinv).
Qed.

(** X20 on the two events of the scenario, on the granting platform. *)
Lemma tag_reads_logged_witness :
  let '(sh1, _, ndef) := handleStartScan idle_shell ready in
  exists reader trace,
    ndef = Some reader
    /\ Forall2 reading_of [event_one; event_three] trace
    /\ tag_cards (deliver reader [event_one; event_three] sh1)
       = rev (map (fun inv =>
                     (str "Tag Read",
                      mkTagRead (or_null (inv_serialNumber inv))
                                (records (inv_message inv)))) trace)
           ++ tag_cards idle_shell
    /\ controller (deliver reader [event_one; event_three] sh1) = controller sh1
    /\ btnStart_disabled (deliver reader [event_one; event_three] sh1) = true
    /\ btnStop_disabled (deliver reader [event_one; event_three] sh1) = false
    /\ forall event, hd_error (rev [event_one; event_three]) = Some event ->
         serial_textContent (deliver reader [event_one; event_three] sh1)
         = or_else (serialNumber event) [0x2014]
         /\ tech_textContent (deliver reader [event_one; event_three] sh1)
            = or_else (match target event with
                       | Some t => tech t
                       | None => None
                       end) (str "NDEF").
Proof.
  apply (tag_reads_logged idle_shell ready [event_one; event_three]); reflexivity.
Defined.

(** ** The theme manager *)

Section Theme.

Lemma toggle_theme_dark (t : ThemePage) :
  data_theme t = Some (str "dark") ->
  toggle_theme t
  = mkTheme (Some (str "light")) (prefers_dark t) (Some (str "light"))
            (match themeToggle t with Some _ => Some moon | None => None end)
            (click_listeners t).
Proof.
  intros H. unfold toggle_theme, applyTheme. rewrite H.
  cbn. destruct (themeToggle t); reflexivity.
Qed.

Lemma toggle_theme_other (t : ThemePage) :
  data_theme t <> Some (str "dark") ->
  toggle_theme t
  = mkTheme (Some (str "dark")) (prefers_dark t) (Some (str "dark"))
            (match themeToggle t with Some _ => Some sun | None => None end)
            (click_listeners t).
Proof.
  intros H. unfold toggle_theme, applyTheme.
  destruct (data_theme t) as [cur|].
  - destruct (js_eqb cur (str "dark")) eqn:E.
    + apply js_eqb_eq in E. subst cur. now elim H.
    + cbn. destruct (themeToggle t); reflexivity.
  - cbn. destruct (themeToggle t); reflexivity.
Qed.

(** After [setupTheme] on a new document with the button, one listener
    is on the button, and a click runs it once. *)
Lemma setupTheme_one_listener (t : ThemePage) (x : jsstring) :
  click_listeners t = O -> themeToggle t = Some x ->
  click_listeners (setupTheme t) = 1%nat
  /\ themeToggle (setupTheme t) <> None
  /\ data_theme (setupTheme t) <> None.
Proof.
  intros Hl Hb. unfold setupTheme, applyTheme. cbn. rewrite Hb, Hl.
  cbn. repeat split; discriminate.
Qed.

Lemma click_toggles (t : ThemePage) :
  click_listeners t = 1%nat -> click t = toggle_theme t.
Proof. intros H. unfold click. rewrite H. reflexivity. Qed.

Lemma toggle_theme_cases (t : ThemePage) :
  (data_theme t = Some (str "dark")
   /\ data_theme (toggle_theme t) = Some (str "light"))
  \/ (data_theme t <> Some (str "dark")
      /\ data_theme (toggle_theme t) = Some (str "dark")).
Proof.
  destruct (data_theme t) as [cur|] eqn:E.
  - destruct (js_eqb cur (str "dark")) eqn:D.
    + apply js_eqb_eq in D. subst cur. left. split; [reflexivity|].
      now rewrite toggle_theme_dark.
    + apply js_eqb_neq in D. right. split; [congruence|].
      rewrite toggle_theme_other; [reflexivity|congruence].
  - right. split; [discriminate|].
    rewrite toggle_theme_other; [reflexivity|congruence].
Qed.

Lemma toggle_theme_keeps (t : ThemePage) :
  click_listeners (toggle_theme t) = click_listeners t
  /\ prefers_dark (toggle_theme t) = prefers_dark t
  /\ stored_theme (toggle_theme t) = data_theme (toggle_theme t)
  /\ (themeToggle t <> None ->
      themeToggle (toggle_theme t)
      = Some (if match data_theme (toggle_theme t) with
                 | Some th => js_eqb th (str "dark")
                 | None => false
                 end then sun else moon)).
Proof.
  destruct (toggle_theme_cases t) as [[H _]|[H _]].
  - rewrite (toggle_theme_dark t H). cbn. repeat split.
    destruct (themeToggle t); [reflexivity|congruence].
  - rewrite (toggle_theme_other t H). cbn. repeat split.
    destruct (themeToggle t); [reflexivity|congruence].
Qed.

End Theme.

(** X21.  On a new document with the toggle button, after [setupTheme]
    each click turns the theme ["dark"] into ["light"] and every other
    theme into ["dark"], stores the new theme, and sets the button to
    the sun for ["dark"] and the moon for ["light"]; so two clicks give
    a ["dark"] or ["light"] theme back, and three clicks are one. *)
Theorem click_toggles_theme :
  forall (t : ThemePage) (x : jsstring),
    click_listeners t = O ->
    themeToggle t = Some x ->
    let t0 := setupTheme t in
    (data_theme t0 = Some (str "dark")
     /\ click t0
        = mkTheme (Some (str "light")) (prefers_dark t) (Some (str "light"))
                  (Some moon) 1
     \/ data_theme t0 <> Some (str "dark")
        /\ click t0
           = mkTheme (Some (str "dark")) (prefers_dark t) (Some (str "dark"))
                     (Some sun) 1)
    /\ click (click (click t0)) = click t0
    /\ (data_theme t0 = Some (str "dark") \/ data_theme t0 = Some (str "light") ->
        data_theme (click (click t0)) = data_theme t0).
Proof.
  intros t x Hl Hb t0.
  destruct (setupTheme_one_listener t x Hl Hb) as (H1 & H2 & _).
  fold t0 in H1, H2.
  assert (Hp : prefers_dark t0 = prefers_dark t).
  { unfold t0, setupTheme, applyTheme. cbn. now rewrite Hb. }
  assert (Hdark : forall pd,
            click (mkTheme (Some (str "dark")) pd (Some (str "dark")) (Some sun) 1)
            = mkTheme (Some (str "light")) pd (Some (str "light")) (Some moon) 1)
    by reflexivity.
  assert (Hlight : forall pd,
            click (mkTheme (Some (str "light")) pd (Some (str "light")) (Some moon) 1)
            = mkTheme (Some (str "dark")) pd (Some (str "dark")) (Some sun) 1)
    by reflexivity.
  rewrite (click_toggles t0 H1).
  destruct (themeToggle t0) as [y|] eqn:Hy; [|congruence].
  destruct (data_theme t0) as [cur|] eqn:Hd.
  - destruct (js_eqb cur (str "dark")) eqn:D.
    + apply js_eqb_eq in D. subst cur.
      rewrite (toggle_theme_dark t0 Hd), Hy, H1, Hp.
      split; [left; split; reflexivity|].
      rewrite Hlight, Hdark. split; [reflexivity|]. intros _. reflexivity.
    + apply js_eqb_neq in D.
      rewrite (toggle_theme_other t0), Hy, H1, Hp by congruence.
      split; [right; split; [congruence|reflexivity]|].
      rewrite Hdark, Hlight. split; [reflexivity|].
      intros [E|E]; [congruence|]. exact (eq_sym E).
  - rewrite (toggle_theme_other t0), Hy, H1, Hp by congruence.
    split; [right; split; [congruence|reflexivity]|].
    rewrite Hdark, Hlight. split; [reflexivity|].
    intros [E|E]; discriminate.
Qed.

(** X21 on a new document, nothing stored, a dark colour scheme. *)
Lemma click_toggles_theme_witness :
  let t0 := setupTheme new_document in
  (data_theme t0 = Some (str "dark")
   /\ click t0
      = mkTheme (Some (str "light")) (prefers_dark new_document)
                (Some (str "light")) (Some moon) 1
   \/ data_theme t0 <> Some (str "dark")
      /\ click t0
         = mkTheme (Some (str "dark")) (prefers_dark new_document)
                   (Some (str "dark")) (Some sun) 1)
  /\ click (click (click t0)) = click t0
  /\ (data_theme t0 = Some (str "dark") \/ data_theme t0 = Some (str "light") ->
      data_theme (click (click t0)) = data_theme t0).
Proof.
  apply (click_toggles_theme new_document (str "")); reflexivity.
Defined.

(** X22.  The theme survives a reload: on a new document with the
    toggle button, after [setupTheme] and any number of clicks, loading
    the page again and running [setupTheme] gives the theme that was
    shown; and [setupTheme] itself stores nothing. *)
Theorem theme_survives_reload :
  forall (t : ThemePage) (x : jsstring) (n : nat),
    click_listeners t = O ->
    themeToggle t = Some x ->
    data_theme (setupTheme (reload (Nat.iter n click (setupTheme t))))
    = data_theme (Nat.iter n click (setupTheme t))
    /\ stored_theme (setupTheme t) = stored_theme t.
Proof.
  intros t x n Hl Hb. split.
  2:{ unfold setupTheme, applyTheme. cbn. now rewrite Hb. }
  destruct n as [|n].
  - cbn [Nat.iter nat_rect]. unfold setupTheme, applyTheme, reload. cbn.
    rewrite Hb. cbn. reflexivity.
  - assert (Inv : forall k,
              let tk := Nat.iter (S k) click (setupTheme t) in
              click_listeners tk = 1%nat /\ themeToggle tk <> None
              /\ stored_theme tk = data_theme tk
              /\ (data_theme tk = Some (str "dark")
                  \/ data_theme tk = Some (str "light"))).
    { destruct (setupTheme_one_listener t x Hl Hb) as (H1 & H2 & _).
      assert (Step : forall u, click_listeners u = 1%nat -> themeToggle u <> None ->
                let u' := click u in
                click_listeners u' = 1%nat /\ themeToggle u' <> None
                /\ stored_theme u' = data_theme u'
                /\ (data_theme u' = Some (str "dark")
                    \/ data_theme u' = Some (str "light"))).
      { intros u Hu1 Hu2. cbv zeta. rewrite (click_toggles u Hu1).
        destruct (toggle_theme_keeps u) as (K1 & _ & K3 & K4).
        split; [congruence|]. split; [rewrite (K4 Hu2); discriminate|].
        split; [exact K3|].
        destruct (toggle_theme_cases u) as [[_ ->]|[_ ->]]; auto. }
      induction k as [|k IH].
      - apply Step; assumption.
      - destruct IH as (I1 & I2 & _). apply Step; assumption. }
    destruct (Inv n) as (_ & _ & Hst & Hth). cbv zeta in *.
    remember (Nat.iter (S n) click (setupTheme t)) as tn eqn:Etn. clear Etn Inv.
    assert (Hinit : data_theme (setupTheme (reload tn))
                    = Some (or_else (stored_theme tn)
                              (if prefers_dark tn then str "dark" else str "light"))).
    { unfold setupTheme, applyTheme, reload. cbn.
      destruct (themeToggle tn); reflexivity. }
    rewrite Hinit, Hst. destruct Hth as [->| ->]; reflexivity.
Qed.

(** X22 on a new document, nothing stored, a dark colour scheme, after
    three clicks. *)
Lemma theme_survives_reload_witness :
  data_theme (setupTheme (reload (Nat.iter 3 click (setupTheme new_document))))
  = data_theme (Nat.iter 3 click (setupTheme new_document))
  /\ stored_theme (setupTheme new_document) = stored_theme new_document.
Proof.
  apply (theme_survives_reload new_document (str "") 3); reflexivity.
Defined.
